(** * cAdvisor collector: a shallow embedding of [cadvisor_collector.py]

    The development follows the source top to bottom: the Python values the
    collector manipulates (decoded JSON, exceptions, truthiness, the builtin
    conversions), then [get_cadvisor_base_url], [extract_filesystem_counters],
    [collect_once], [collect_loop], and finally the writer thread together
    with [stop] as an interleaving transition system.  Definitions come
    first, the statements about them afterwards. *)

From Stdlib Require Import ZArith Ascii String List Lia Bool.
From stdpp Require Import gmap strings.
Import ListNotations.
Set Warnings "-register-all".

Local Open Scope Z_scope.

(** stdpp freezes [String.append] under [simpl]; the proofs below compute
    with literal prefixes, so it is released again. *)
#[local] Arguments String.append !_ _ : simpl nomatch.

(* ===================================================================== *)
(** ** Exceptions and results *)
(* ===================================================================== *)

(** The exception classes the modelled code can meet.  [HTTPError] stands
    for everything [requests.get], [raise_for_status] and [response.json]
    may raise (transport failure, non-2xx status, malformed body). *)
Inductive exn : Type :=
| ValueError
| TypeError
| AttributeError
| KeyError
| IndexError
| OverflowError
| HTTPError.

(** A Python expression either evaluates to a value or raises. *)
Inductive res (A : Type) : Type :=
| Ok (a : A)
| Raise (e : exn).
Arguments Ok {A} a.
Arguments Raise {A} e.

#[global] Instance res_ret : MRet res := fun A a => Ok a.

#[global] Instance res_bind : MBind res := fun A B k r =>
  match r with
  | Ok a => k a
  | Raise e => Raise e
  end.

Definition is_ok {A} (r : res A) : bool :=
  match r with Ok _ => true | Raise _ => false end.

(* ===================================================================== *)
(** ** Strings

    A Python [str] is modelled by [string]; a character is a code point
    below 256.  The helpers below are the [str] methods the source calls. *)
(* ===================================================================== *)

(** [str.isspace] on one character, restricted to code points below 256:
    U+0009..U+000D, U+001C..U+0020, U+0085 and U+00A0. *)
Definition isspace (c : ascii) : bool :=
  let n := N_of_ascii c in
  (((9 <=? n) && (n <=? 13)) || ((28 <=? n) && (n <=? 32))
   || (n =? 133) || (n =? 160))%N.

Definition is_slash (c : ascii) : bool := Ascii.eqb c "/".

(** [s.lstrip()] and [s.rstrip(chars)], the latter by the predicate that
    recognises the characters to remove. *)
Fixpoint lstrip (s : string) : string :=
  match s with
  | EmptyString => EmptyString
  | String c s' => if isspace c then lstrip s' else s
  end.

Fixpoint rstrip_by (p : ascii -> bool) (s : string) : string :=
  match s with
  | EmptyString => EmptyString
  | String c s' =>
      match rstrip_by p s' with
      | EmptyString => if p c then EmptyString else String c EmptyString
      | r => String c r
      end
  end.

(** [s.strip()] *)
Definition strip (s : string) : string := rstrip_by isspace (lstrip s).

(** [s.rstrip("/")] *)
Definition rstrip_slash (s : string) : string := rstrip_by is_slash s.

(** [s.startswith(p)] *)
Fixpoint startswith (p s : string) : bool :=
  match p with
  | EmptyString => true
  | String c p' =>
      match s with
      | String d s' => Ascii.eqb c d && startswith p' s'
      | EmptyString => false
      end
  end.

(** [c in s] for a one-character [c]. *)
Fixpoint contains (c : ascii) (s : string) : bool :=
  match s with
  | EmptyString => false
  | String d s' => Ascii.eqb c d || contains c s'
  end.

(** [s.split("//", 1)[-1]]: what follows the leftmost ["//"], or all of [s]
    when there is none. *)
Fixpoint after_dslash (s : string) : option string :=
  match s with
  | EmptyString => None
  | String c s' =>
      match s' with
      | String d r =>
          if Ascii.eqb c "/" && Ascii.eqb d "/" then Some r else after_dslash s'
      | EmptyString => None
      end
  end.

Definition split_dslash_last (s : string) : string :=
  match after_dslash s with
  | Some r => r
  | None => s
  end.

(** [s.split("/")[-1]]: the text after the last ["/"]. *)
Fixpoint last_segment (s : string) : string :=
  match s with
  | EmptyString => EmptyString
  | String c s' =>
      if contains "/" s then
        (if contains "/" s' then last_segment s' else s')
      else s
  end.

(* ===================================================================== *)
(** ** [get_cadvisor_base_url] *)
(* ===================================================================== *)

Definition has_scheme (s : string) : bool :=
  startswith "http://" s || startswith "https://" s.

(** The two prefixes [has_scheme] recognises. *)
Definition is_scheme (sch : string) : Prop :=
  sch = "http://" \/ sch = "https://".

(** The address given to the constructor is a string (it comes from a
    required command-line option); [not host_value] is then emptiness. *)
Definition get_cadvisor_base_url (cadvisor_address : string) : res string :=
  let host_value := cadvisor_address in
  if String.eqb host_value "" then Raise ValueError
  else
    let host_value := strip host_value in
    let base := if has_scheme host_value then host_value
                else "http://" +:+ host_value in
    let base := if negb (contains ":" (split_dslash_last base))
                then base +:+ ":8080" else base in
    Ok (rstrip_slash base).

(* ===================================================================== *)
(** ** Decoded JSON and the builtins applied to it *)
(* ===================================================================== *)

(** A Python [float]: a finite value, kept as the fraction [num/den], a NaN
    or an infinity.  Only truthiness and [int()] look inside. *)
Inductive pyfloat : Type :=
| FFin (num : Z) (den : positive)
| FNaN
| FInf (negative : bool).

(** What [response.json()] can return.  A dict keeps its items in order. *)
Inductive json : Type :=
| JNull
| JBool (b : bool)
| JInt (n : Z)
| JFloat (f : pyfloat)
| JStr (s : string)
| JList (l : list json)
| JDict (d : list (string * json)).

(** Library parsers the source calls and does not define: [int] and [float]
    on a string, and the expression
    [round(datetime.timestamp(dateutil.parser.isoparse(ts)))].  [None] means
    that the call raised.  Everything below holds for any such parsers. *)
Class Builtins : Type := {
  int_of_str : string -> option Z;
  float_of_str : string -> option pyfloat;
  isoparse_timestamp : json -> option Z
}.

Definition float_truthy (f : pyfloat) : bool :=
  match f with
  | FFin n _ => negb (n =? 0)%Z
  | FNaN | FInf _ => true
  end.

(** [bool(v)] *)
Definition truthy (v : json) : bool :=
  match v with
  | JNull => false
  | JBool b => b
  | JInt n => negb (n =? 0)%Z
  | JFloat f => float_truthy f
  | JStr s => negb (String.eqb s "")
  | JList l => match l with [] => false | _ :: _ => true end
  | JDict d => match d with [] => false | _ :: _ => true end
  end.

(** [a or b] once both operands are evaluated. *)
Definition py_or (a b : json) : json := if truthy a then a else b.

Fixpoint assoc (k : string) (d : list (string * json)) : option json :=
  match d with
  | [] => None
  | (k', v) :: d' => if String.eqb k k' then Some v else assoc k d'
  end.

(** [v.get(k, default)]; only a dict has [get]. *)
Definition py_get (v : json) (k : string) (default : json) : res json :=
  match v with
  | JDict d => Ok (match assoc k d with Some x => x | None => default end)
  | _ => Raise AttributeError
  end.

(** [v.get(k1) or v.get(k2)] and [v.get(k1) or v.get(k2) or v.get(k3)]:
    the right operand is evaluated only when the left one is falsy. *)
Definition get_or2 (v : json) (k1 k2 : string) : res json :=
  a ← py_get v k1 JNull;
  if truthy a then Ok a else py_get v k2 JNull.

Definition get_or3 (v : json) (k1 k2 k3 : string) : res json :=
  a ← py_get v k1 JNull;
  if truthy a then Ok a
  else b ← py_get v k2 JNull;
       if truthy b then Ok b else py_get v k3 JNull.

(** [int(f)] truncates toward zero and rejects NaN and the infinities. *)
Definition float_to_int (f : pyfloat) : res Z :=
  match f with
  | FFin n d => Ok (Z.quot n (Z.pos d))
  | FNaN => Raise ValueError
  | FInf _ => Raise OverflowError
  end.

(** [int(v)] *)
Definition py_int {rt : Builtins} (v : json) : res Z :=
  match v with
  | JInt n => Ok n
  | JBool b => Ok (if b then 1 else 0)
  | JFloat f => float_to_int f
  | JStr s => match int_of_str s with
              | Some n => Ok n
              | None => Raise ValueError
              end
  | JNull | JList _ | JDict _ => Raise TypeError
  end.

(** [float(v)]; an int beyond the double range overflows. *)
Definition py_float {rt : Builtins} (v : json) : res pyfloat :=
  match v with
  | JFloat f => Ok f
  | JInt n => if (Z.abs n <? 2 ^ 1024 - 2 ^ 970)%Z then Ok (FFin n 1)
              else Raise OverflowError
  | JBool b => Ok (FFin (if b then 1 else 0) 1)
  | JStr s => match float_of_str s with
              | Some f => Ok f
              | None => Raise ValueError
              end
  | JNull | JList _ | JDict _ => Raise TypeError
  end.

(** The items a [for] loop over [v] visits: the elements of a list, the
    characters of a string, the keys of a dict; anything else is not
    iterable. *)
Definition py_iter (v : json) : res (list json) :=
  match v with
  | JList l => Ok l
  | JStr s => Ok (map (fun c => JStr (String c EmptyString))
                      (list_ascii_of_string s))
  | JDict d => Ok (map (fun kv => JStr (fst kv)) d)
  | JNull | JBool _ | JInt _ | JFloat _ => Raise TypeError
  end.

(** [v[0]] *)
Definition py_index0 (v : json) : res json :=
  match v with
  | JList (x :: _) => Ok x
  | JList [] => Raise IndexError
  | JStr (String c _) => Ok (JStr (String c EmptyString))
  | JStr EmptyString => Raise IndexError
  | JDict _ => Raise KeyError
  | JNull | JBool _ | JInt _ | JFloat _ => Raise TypeError
  end.

(** A [for] loop whose body may raise: the first exception ends it. *)
Fixpoint for_each {S A : Type} (body : S -> A -> res S) (l : list A) (s : S)
  : res S :=
  match l with
  | [] => Ok s
  | x :: l' => s' ← body s x; for_each body l' s'
  end.

(* ===================================================================== *)
(** ** [extract_filesystem_counters] *)
(* ===================================================================== *)

(** The four running totals, in the order of the returned tuple. *)
Definition totals : Type := (Z * Z * Z * Z)%type.

(** The [try] block of the loop body: the four [+=] run in order and the
    first conversion that raises sends control to [except Exception:
    continue], the totals updated so far being kept. *)
Definition add_counters {rt : Builtins} (tot : totals)
    (reads_value writes_value read_bytes_value write_bytes_value : json)
  : totals :=
  let '(total_reads, total_writes, total_read_bytes, total_write_bytes) := tot in
  match py_int (py_or reads_value (JInt 0)) with
  | Raise _ => tot
  | Ok r =>
    let total_reads := total_reads + r in
    match py_int (py_or writes_value (JInt 0)) with
    | Raise _ =>
        (total_reads, total_writes, total_read_bytes, total_write_bytes)
    | Ok w =>
      let total_writes := total_writes + w in
      match py_int (py_or read_bytes_value (JInt 0)) with
      | Raise _ =>
          (total_reads, total_writes, total_read_bytes, total_write_bytes)
      | Ok rb =>
        let total_read_bytes := total_read_bytes + rb in
        match py_int (py_or write_bytes_value (JInt 0)) with
        | Raise _ =>
            (total_reads, total_writes, total_read_bytes, total_write_bytes)
        | Ok wb =>
            (total_reads, total_writes, total_read_bytes,
             total_write_bytes + wb)
        end
      end
    end
  end.

(** One iteration of [for fs_entry in filesystem_list]; the four lookups
    stand outside the [try]. *)
Definition fs_entry_body {rt : Builtins} (tot : totals) (fs_entry : json)
  : res totals :=
  reads_value ← get_or2 fs_entry "reads" "readsCompleted";
  writes_value ← get_or2 fs_entry "writes" "writesCompleted";
  read_bytes_value ← get_or3 fs_entry "readBytes" "readbytes" "read_bytes";
  write_bytes_value ← get_or3 fs_entry "writeBytes" "writebytes" "write_bytes";
  Ok (add_counters tot reads_value writes_value
                   read_bytes_value write_bytes_value).

Definition extract_filesystem_counters {rt : Builtins} (sample : json)
  : res totals :=
  a ← py_get sample "filesystem" JNull;
  filesystem_list ←
    (if truthy a then Ok a
     else b ← py_get sample "fs" JNull; Ok (py_or b (JList [])));
  entries ← py_iter filesystem_list;
  for_each fs_entry_body entries (0, 0, 0, 0).

(** *** The extractor in the words of its description

    The value of [filesystem_list], the value a counter resolves to (the
    first alias, in priority order, whose value is truthy, else 0), and the
    per-counter sums over the device entries. *)

Definition is_dict (v : json) : bool :=
  match v with JDict _ => true | _ => false end.

Definition lookup_or_null (k : string) (d : list (string * json)) : json :=
  match assoc k d with Some x => x | None => JNull end.

Definition filesystem_list_of (d : list (string * json)) : json :=
  py_or (lookup_or_null "filesystem" d)
        (py_or (lookup_or_null "fs" d) (JList [])).

(** The samples on which the extractor's lookups are defined: a dict whose
    filesystem list is a list of dicts. *)
Definition sample_shape_ok (sample : json) : bool :=
  match sample with
  | JDict d =>
      match filesystem_list_of d with
      | JList entries => forallb is_dict entries
      | _ => false
      end
  | _ => false
  end.

Fixpoint first_truthy (aliases : list string) (d : list (string * json))
  : json :=
  match aliases with
  | [] => JInt 0
  | k :: aliases' =>
      if truthy (lookup_or_null k d) then lookup_or_null k d
      else first_truthy aliases' d
  end.

Definition reads_aliases : list string := ["reads"; "readsCompleted"].
Definition writes_aliases : list string := ["writes"; "writesCompleted"].
Definition read_bytes_aliases : list string :=
  ["readBytes"; "readbytes"; "read_bytes"].
Definition write_bytes_aliases : list string :=
  ["writeBytes"; "writebytes"; "write_bytes"].

(** The integer a counter of entry [d] stands for, 0 when it has none. *)
Definition counter {rt : Builtins} (aliases : list string)
    (d : list (string * json)) : Z :=
  match py_int (first_truthy aliases d) with
  | Ok n => n
  | Raise _ => 0
  end.

(** All four counters of entry [d] convert. *)
Definition counters_convert {rt : Builtins} (d : list (string * json))
  : bool :=
  is_ok (py_int (first_truthy reads_aliases d))
  && is_ok (py_int (first_truthy writes_aliases d))
  && is_ok (py_int (first_truthy read_bytes_aliases d))
  && is_ok (py_int (first_truthy write_bytes_aliases d)).

Fixpoint sum_counter {rt : Builtins} (aliases : list string)
    (ds : list (list (string * json))) : Z :=
  match ds with
  | [] => 0
  | d :: ds' => counter aliases d + sum_counter aliases ds'
  end.

(** Adding totals counter by counter. *)
Definition totals_add (x y : totals) : totals :=
  let '(a, b, c, e) := x in
  let '(a', b', c', e') := y in
  (a + a', b + b', c + c', e + e').

(* ===================================================================== *)
(** ** [collect_once] and [collect_loop] *)
(* ===================================================================== *)

(** The deduplication key [(container_id, sample_ts)]. *)
Definition sample_key : Type := (string * Z)%type.

(** The fields interpolated into [line], in column order.  Rendering them
    with an f-string cannot raise, so the queue holds the record. *)
Record Row : Type := mkRow {
  row_collected : Z;
  row_timestamp : Z;
  row_service : json;
  row_image : json;
  row_cpu_total : pyfloat;
  row_memory_usage : Z;
  row_memory_limit : Z;
  row_reads : Z;
  row_writes : Z;
  row_readBytes : Z;
  row_writeBytes : Z;
  row_rx_bytes : Z;
  row_tx_bytes : Z;
  row_rx_packets : Z;
  row_tx_packets : Z
}.

(** The two attributes [collect_once] mutates.  [write_queue] is the
    producer's end of the queue: what [put] has appended so far, oldest
    first.  Each line is recorded with the key under which it was put; the
    key is bookkeeping for the statements, no modelled code reads it. *)
Record collector : Type := mkCollector {
  seen_samples : gset sample_key;
  write_queue : list (sample_key * Row)
}.

Definition new_collector : collector :=
  {| seen_samples := ∅; write_queue := [] |}.

(** The keys of the lines put so far. *)
Definition queued_keys (st : collector) : list sample_key :=
  map fst (write_queue st).

(** A [for] loop whose body mutates the instance and may raise: the
    mutations made before the exception stay. *)
Fixpoint for_each_st {S A : Type} (body : S -> A -> S * res unit)
    (l : list A) (s : S) : S * res unit :=
  match l with
  | [] => (s, Ok tt)
  | x :: l' =>
      match body s x with
      | (s', Ok _) => for_each_st body l' s'
      | (s', Raise e) => (s', Raise e)
      end
  end.

(** [v.split("/")[-1]]; only a string has [split]. *)
Definition py_split_last (v : json) : res json :=
  match v with
  | JStr s => Ok (JStr (last_segment s))
  | _ => Raise AttributeError
  end.

(** Lines 116 to 135: the metrics of sample [s] and the line built from
    them. *)
Definition build_line {rt : Builtins} (collection_timestamp sample_ts : Z)
    (service_name image_name s : json) : res Row :=
  cpu ← py_get s "cpu" (JDict []);
  usage ← py_get cpu "usage" (JDict []);
  total ← py_get usage "total" (JFloat (FFin 0 1));
  cpu_total ← py_float total;
  memory ← py_get s "memory" (JDict []);
  u ← py_get memory "usage" (JInt 0);
  mem_usage ← py_int u;
  memory ← py_get s "memory" (JDict []);
  l ← py_get memory "limit" (JInt 0);
  mem_limit ← py_int l;
  counters ← extract_filesystem_counters s;
  let '(reads_count, writes_count, read_bytes, write_bytes) := counters in
  n ← py_get s "network" (JDict []);
  let net := py_or n (JDict []) in
  rxb ← py_get net "rx_bytes" (JInt 0);
  rx_bytes ← py_int rxb;
  txb ← py_get net "tx_bytes" (JInt 0);
  tx_bytes ← py_int txb;
  rxp ← py_get net "rx_packets" (JInt 0);
  rx_packets ← py_int rxp;
  txp ← py_get net "tx_packets" (JInt 0);
  tx_packets ← py_int txp;
  Ok (mkRow collection_timestamp sample_ts service_name image_name
            cpu_total mem_usage mem_limit
            reads_count writes_count read_bytes write_bytes
            rx_bytes tx_bytes rx_packets tx_packets).

(** One iteration of [for s in stats_list]. *)
Definition sample_body {rt : Builtins} (collection_timestamp : Z)
    (container_id : string) (service_name image_name : json)
    (st : collector) (s : json) : collector * res unit :=
  match py_get s "timestamp" JNull with
  | Raise e => (st, Raise e)
  | Ok ts =>
    if negb (truthy ts) then (st, Ok tt)
    else
      match isoparse_timestamp ts with
      | None => (st, Ok tt)
      | Some sample_ts =>
        let unique_key := (container_id, sample_ts) in
        if bool_decide (unique_key ∈ seen_samples st) then (st, Ok tt)
        else
          let st := {| seen_samples := {[unique_key]} ∪ seen_samples st;
                       write_queue := write_queue st |} in
          match build_line collection_timestamp sample_ts
                           service_name image_name s with
          | Raise e => (st, Raise e)
          | Ok line =>
              ({| seen_samples := seen_samples st;
                  write_queue := write_queue st ++ [(unique_key, line)] |},
               Ok tt)
          end
      end
  end.

(** The head of one iteration of [for container_id, container_entry in
    docker_data.items()]: the service name, the image name and the samples
    of the entry. *)
Definition container_fields (container_entry : json)
  : res (json * json * list json) :=
  a ← py_get container_entry "aliases" JNull;
  let aliases := py_or a (JList []) in
  service_name ←
    (if truthy aliases then py_index0 aliases
     else n ← py_get container_entry "name" (JStr "");
          py_split_last n);
  stats_list ← py_get container_entry "stats" (JList []);
  spec ← py_get container_entry "spec" (JDict []);
  image_name ← py_get spec "image" (JStr "");
  stats ← py_iter stats_list;
  Ok (service_name, image_name, stats).

(** One iteration of that loop. *)
Definition container_body {rt : Builtins} (collection_timestamp : Z)
    (st : collector) (item : string * json) : collector * res unit :=
  let '(container_id, container_entry) := item in
  match container_fields container_entry with
  | Raise e => (st, Raise e)
  | Ok (service_name, image_name, stats) =>
      for_each_st
        (sample_body collection_timestamp container_id service_name image_name)
        stats st
  end.

(** What one call of [collect_once] reads from outside the instance: the
    stop flag, the clock, and the endpoint (the decoded body for a URL, or
    the exception of [requests.get], [raise_for_status] or [json]). *)
Record poll : Type := mkPoll {
  stop_is_set : bool;
  utcnow : Z;
  http_get : string -> res json
}.

Definition collect_once {rt : Builtins} (cadvisor_address : string) (p : poll)
    (st : collector) : collector * res unit :=
  if stop_is_set p then (st, Ok tt)
  else
    let collection_timestamp := utcnow p in
    match get_cadvisor_base_url cadvisor_address with
    | Raise e => (st, Raise e)
    | Ok base =>
      let url := base +:+ "/api/v1.3/docker/" in
      match http_get p url with
      | Raise e => (st, Raise e)
      | Ok (JDict docker_data) =>
          for_each_st (container_body collection_timestamp) docker_data st
      | Ok _ => (st, Raise AttributeError)
      end
    end.

(** One turn of the [while] loop of [collect_loop]: the flag as read by the
    loop test, then what [collect_once] reads. *)
Record tick : Type := mkTick {
  stop_at_loop_test : bool;
  tick_poll : poll
}.

Inductive loop_status : Type :=
| Looping   (* the [while] has not exited *)
| Stopped.  (* "Collector loop stopped." *)

(** [collect_loop] over the given turns.  [except Exception] discards what
    [collect_once] raised; the interruptible sleep changes nothing in the
    instance. *)
Fixpoint collect_loop {rt : Builtins} (cadvisor_address : string)
    (ticks : list tick) (st : collector) : loop_status * collector :=
  match ticks with
  | [] => (Looping, st)
  | t :: ticks' =>
      if stop_at_loop_test t then (Stopped, st)
      else
        let '(st', _) := collect_once cadvisor_address (tick_poll t) st in
        collect_loop cadvisor_address ticks' st'
  end.

(** The successive states of the instance over a series of polls. *)
Fixpoint collect_many {rt : Builtins} (cadvisor_address : string)
    (polls : list poll) (st : collector) : collector :=
  match polls with
  | [] => st
  | p :: polls' =>
      collect_many cadvisor_address polls'
                   (fst (collect_once cadvisor_address p st))
  end.

(** The wait at the end of each turn of [collect_loop]:
    [for _ in range(self.interval_seconds)], leaving at the first test that
    finds the flag set, else [time.sleep(1)].  [stop_at i] is the flag as
    the test number [i] reads it; the result is the number of one-second
    sleeps made. *)
Fixpoint interruptible_sleep (stop_at : nat -> bool) (i remaining : nat)
  : nat :=
  match remaining with
  | O => O
  | S remaining' =>
      if stop_at i then O
      else S (interruptible_sleep stop_at (S i) remaining')
  end.

(** [range(n)] is empty for [n <= 0]. *)
Definition interval_wait (interval_seconds : Z) (stop_at : nat -> bool)
  : nat :=
  interruptible_sleep stop_at 0 (Z.to_nat interval_seconds).

(** *** Deduplication in the words of its description

    [st'] extends [st]: no key has left the seen-set, the queue has only
    grown at its tail, and each line put in between carries a key that was
    not seen in [st], is seen in [st'], and was put once. *)
Definition extends (st st' : collector) : Prop :=
  seen_samples st ⊆ seen_samples st'
  /\ exists new : list (sample_key * Row),
       write_queue st' = write_queue st ++ new
       /\ NoDup (map fst new)
       /\ forall k, k ∈ map fst new ->
                    (k ∉ seen_samples st) /\ (k ∈ seen_samples st').

(** Every queued key is in the seen-set and no key is queued twice. *)
Definition queue_sound (st : collector) : Prop :=
  (forall k, k ∈ queued_keys st -> k ∈ seen_samples st)
  /\ NoDup (queued_keys st).

(** Marking [k] as seen. *)
Definition mark_seen (k : sample_key) (st : collector) : collector :=
  {| seen_samples := {[k]} ∪ seen_samples st;
     write_queue := write_queue st |}.

(** The number of lines put under the key [k]. *)
Definition lines_under (k : sample_key) (q : list (sample_key * Row))
  : nat :=
  length (List.filter (fun e => bool_decide (fst e = k)) q).

Definition rows_under (k : sample_key) (st : collector) : nat :=
  lines_under k (write_queue st).

(** The snapshot [data] feeds the key [k]: the container of [k] is in it
    with an entry whose fields can be read, and one of its samples carries
    a timestamp that parses to the second of [k]. *)
Definition snapshot_has_key {rt : Builtins} (data : list (string * json))
    (k : sample_key) : Prop :=
  exists (entry svc img : json) (stats : list json) (s ts : json),
    (fst k, entry) ∈ data
    /\ container_fields entry = Ok (svc, img, stats)
    /\ s ∈ stats
    /\ py_get s "timestamp" JNull = Ok ts
    /\ truthy ts = true
    /\ isoparse_timestamp ts = Some (snd k).

(** A line put by a poll made at [cts]: it carries that collection time
    and the timestamp of its key. *)
Definition line_ok (cts : Z) (e : sample_key * Row) : Prop :=
  row_collected (snd e) = cts /\ row_timestamp (snd e) = snd (fst e).

(** What the endpoint returned is not a snapshot: the request or the
    decoding raised, or the body is not a JSON object. *)
Definition no_snapshot (r : res json) : bool :=
  match r with
  | Ok (JDict _) => false
  | Ok _ | Raise _ => true
  end.

(* ===================================================================== *)
(** ** [container_queue_writer], [stop] and [join]

    The writer thread runs against the thread that fills the queue and then
    calls [stop] and [join].  Each queue or flag operation is atomic; a
    schedule says which thread moves next. *)
(* ===================================================================== *)

Definition newline : string := String (ascii_of_nat 10) EmptyString.

(** The header line written at start-up. *)
Definition csv_header : string :=
  "collected,timestamp,service,image,cpu_total,memory_usage,memory_limit,"
  +:+ "reads,writes,readBytes,writeBytes,rx_bytes,tx_bytes,rx_packets,tx_packets"
  +:+ newline.

(** Where the writer thread stands. *)
Inductive writer_pc : Type :=
| W_open      (* before [open(file_path, "w")] *)
| W_while     (* at the test [while not self.stop_event.is_set()] *)
| W_get       (* at [self.write_queue.get(timeout=1.0)] *)
| W_drain     (* at [self.write_queue.get_nowait()] *)
| W_exit.     (* file closed, thread finished *)

(** Where the calling thread stands. *)
Inductive caller_pc : Type :=
| C_put       (* still putting rows; then [self.stop_event.set()] *)
| C_unblock   (* at [self.write_queue.put("")] inside [stop] *)
| C_join.     (* inside [join], waiting for the writer *)

Record sys : Type := mkSys {
  sys_stop : bool;               (* [stop_event] *)
  sys_queue : list string;       (* [write_queue], oldest first *)
  sys_file : option string;      (* content of cadvisor_container.csv *)
  sys_writer : writer_pc;
  sys_caller : caller_pc;
  sys_pending : list string      (* rows the caller has yet to put *)
}.

(** [f.write(item)] on the file opened for appending. *)
Definition file_append (f : option string) (item : string) : option string :=
  Some (match f with Some c => c +:+ item | None => item end).

(** One move of [container_queue_writer]. *)
Definition container_queue_writer (s : sys) : sys :=
  match sys_writer s with
  | W_open =>
      (* [open(.., "w")] truncates; the header is written; reopen in "a" *)
      mkSys (sys_stop s) (sys_queue s) (Some csv_header) W_while
            (sys_caller s) (sys_pending s)
  | W_while =>
      mkSys (sys_stop s) (sys_queue s) (sys_file s)
            (if sys_stop s then W_drain else W_get)
            (sys_caller s) (sys_pending s)
  | W_get =>
      match sys_queue s with
      | item :: q =>
          mkSys (sys_stop s) q (file_append (sys_file s) item) W_while
                (sys_caller s) (sys_pending s)
      | [] =>
          (* the timeout elapsed: [except Empty: continue] *)
          mkSys (sys_stop s) [] (sys_file s) W_while
                (sys_caller s) (sys_pending s)
      end
  | W_drain =>
      match sys_queue s with
      | item :: q =>
          mkSys (sys_stop s) q (file_append (sys_file s) item) W_drain
                (sys_caller s) (sys_pending s)
      | [] =>
          (* [except Empty: break] *)
          mkSys (sys_stop s) [] (sys_file s) W_exit
                (sys_caller s) (sys_pending s)
      end
  | W_exit => s
  end.

(** One move of the calling thread: put the next row; when none is left,
    [stop] (set the flag, then put the empty string), then [join]. *)
Definition caller (s : sys) : sys :=
  match sys_caller s with
  | C_put =>
      match sys_pending s with
      | row :: rest =>
          mkSys (sys_stop s) (sys_queue s ++ [row]) (sys_file s)
                (sys_writer s) C_put rest
      | [] =>
          mkSys true (sys_queue s) (sys_file s) (sys_writer s) C_unblock []
      end
  | C_unblock =>
      mkSys (sys_stop s) (sys_queue s ++ [""]) (sys_file s)
            (sys_writer s) C_join (sys_pending s)
  | C_join => s
  end.

Inductive thread : Type := Writer | Caller.

Definition step (t : thread) (s : sys) : sys :=
  match t with
  | Writer => container_queue_writer s
  | Caller => caller s
  end.

Fixpoint run (schedule : list thread) (s : sys) : sys :=
  match schedule with
  | [] => s
  | t :: schedule' => run schedule' (step t s)
  end.

(** Both threads started, nothing put yet; [previous] is what the output
    path held before this run, if anything. *)
Definition start (rows : list string) (previous : option string) : sys :=
  mkSys false [] previous W_open C_put rows.

(** [join] has returned: [stop] is complete and the writer has exited. *)
Definition joined (s : sys) : bool :=
  match sys_writer s, sys_caller s with
  | W_exit, C_join => true
  | _, _ => false
  end.

Fixpoint concat_rows (rows : list string) : string :=
  match rows with
  | [] => EmptyString
  | r :: rows' => r +:+ concat_rows rows'
  end.

(** *** What holds in every state of a run

    [done] are the rows already put.  Once the writer has opened the file,
    what is written followed by what is queued is the header followed by
    the rows put; the stop flag is set exactly when the caller is past its
    last row; the writer drains only after the flag is set and exits on an
    empty queue, after which only the empty string can still be put. *)
Definition shutdown_inv (rows : list string) (s : sys) : Prop :=
  (exists done : list string,
      rows = done ++ sys_pending s
      /\ (length (sys_queue s)
          <= length done
             + match sys_caller s with C_join => 1 | _ => 0 end)%nat
      /\ match sys_writer s with
         | W_open => concat_rows (sys_queue s) = concat_rows done
         | _ => exists c, sys_file s = Some c
                          /\ c +:+ concat_rows (sys_queue s)
                             = csv_header +:+ concat_rows done
         end)
  /\ match sys_caller s with
     | C_put => sys_stop s = false
     | _ => sys_stop s = true /\ sys_pending s = []
     end
  /\ match sys_writer s with
     | W_drain => sys_stop s = true
     | W_exit => sys_stop s = true /\ concat_rows (sys_queue s) = ""
     | _ => True
     end.

(** Moves the caller still has to make, and moves the writer still has to
    make once the flag is set. *)
Definition caller_moves (s : sys) : nat :=
  match sys_caller s with
  | C_put => length (sys_pending s) + 2
  | C_unblock => 1
  | C_join => 0
  end.

Definition writer_moves (s : sys) : nat :=
  match sys_writer s with
  | W_open => 3 + length (sys_queue s)
  | W_while => 2 + length (sys_queue s)
  | W_get => 3 + length (sys_queue s)
  | W_drain => 1 + length (sys_queue s)
  | W_exit => 0
  end.

(** The order of the rows in a run: the rows split into those written,
    those queued and those not yet put, in this order; the queue holds the
    queued rows, followed by the empty string once [stop] has put it; the
    file, once the writer has opened it, holds the header and the rows
    written. *)
Definition fifo_inv (rows : list string) (previous : option string)
    (s : sys) : Prop :=
  exists written queued sentinel : list string,
    rows = written ++ queued ++ sys_pending s
    /\ sys_queue s = queued ++ sentinel
    /\ (sentinel = [] \/ (sentinel = [EmptyString] /\ sys_caller s = C_join))
    /\ match sys_writer s with
       | W_open => written = [] /\ sys_file s = previous
       | _ => sys_file s = Some (csv_header +:+ concat_rows written)
       end.

(** *** The start of the writer at the grain of the file

    [open(file_path, "w")] leaves the file empty; the header reaches it when
    the first [with] block closes, before the file is opened again for
    appending.  [header_pending] says that the writer stands between the
    two; the other moves are those of [container_queue_writer] and
    [caller]. *)
Record fine_sys : Type := mkFine {
  coarse : sys;
  header_pending : bool
}.

(** What the file holds. *)
Definition fine_file (fs : fine_sys) : option string :=
  match sys_writer (coarse fs), header_pending fs with
  | W_open, true => Some EmptyString
  | _, _ => sys_file (coarse fs)
  end.

Definition fine_step (t : thread) (fs : fine_sys) : fine_sys :=
  match t with
  | Caller => mkFine (caller (coarse fs)) (header_pending fs)
  | Writer =>
      match sys_writer (coarse fs), header_pending fs with
      | W_open, false =>
          (* [open(file_path, "w")]: the file is created or truncated *)
          mkFine (coarse fs) true
      | _, _ =>
          (* the header is written and the file closed, or a later move *)
          mkFine (container_queue_writer (coarse fs)) (header_pending fs)
      end
  end.

Fixpoint fine_run (schedule : list thread) (fs : fine_sys) : fine_sys :=
  match schedule with
  | [] => fs
  | t :: schedule' => fine_run schedule' (fine_step t fs)
  end.

Definition fine_start (rows : list string) (previous : option string)
  : fine_sys :=
  mkFine (start rows previous) false.

(* ===================================================================== *)
(** ** An instance of [Builtins] for evaluation

    The three parsers on the plain ASCII forms: decimal integer literals,
    decimal float literals without exponent, and UTC instants written
    [YYYY-MM-DDTHH:MM:SS[.f...]Z].  The concrete inputs evaluated below all
    lie in this fragment. *)
(* ===================================================================== *)

Definition digit_of (c : ascii) : option Z :=
  let n := N_of_ascii c in
  if ((48 <=? n) && (n <=? 57))%N then Some (Z.of_N n - 48)%Z else None.

(** Digits with single underscores between them. *)
Fixpoint parse_digits (acc : Z) (after_digit : bool) (s : string)
  : option Z :=
  match s with
  | EmptyString => if after_digit then Some acc else None
  | String c s' =>
      match digit_of c with
      | Some d => parse_digits (10 * acc + d)%Z true s'
      | None =>
          if Ascii.eqb c "_" && after_digit then parse_digits acc false s'
          else None
      end
  end.

Definition ascii_int_of_str (s : string) : option Z :=
  match strip s with
  | String "+" r => parse_digits 0 false r
  | String "-" r => option_map Z.opp (parse_digits 0 false r)
  | t => parse_digits 0 false t
  end.

(** Digits up to the first other character: value, count, remainder. *)
Fixpoint take_digits (acc : Z) (count : nat) (s : string)
  : Z * nat * string :=
  match s with
  | EmptyString => (acc, count, EmptyString)
  | String c s' =>
      match digit_of c with
      | Some d => take_digits (10 * acc + d)%Z (S count) s'
      | None => (acc, count, s)
      end
  end.

Definition parse_unsigned_decimal (s : string) : option pyfloat :=
  let '(ip, ni, r) := take_digits 0 0%nat s in
  match r with
  | EmptyString =>
      if (0 <? ni)%nat then Some (FFin ip 1) else None
  | String "." r' =>
      let '(all, nf, r'') := take_digits ip 0%nat r' in
      match r'' with
      | EmptyString =>
          if (0 <? ni + nf)%nat
          then Some (FFin all (Z.to_pos (10 ^ Z.of_nat nf)))
          else None
      | _ => None
      end
  | _ => None
  end.

Definition float_neg (f : pyfloat) : pyfloat :=
  match f with
  | FFin n d => FFin (- n) d
  | FNaN => FNaN
  | FInf b => FInf (negb b)
  end.

Definition ascii_float_of_str (s : string) : option pyfloat :=
  match strip s with
  | String "+" r => parse_unsigned_decimal r
  | String "-" r => option_map float_neg (parse_unsigned_decimal r)
  | t => parse_unsigned_decimal t
  end.

(** Days from 1970-01-01 to the given civil date. *)
Definition days_from_civil (y m d : Z) : Z :=
  let y' := if (m <=? 2)%Z then (y - 1)%Z else y in
  let era := (y' / 400)%Z in
  let yoe := (y' - era * 400)%Z in
  let mp := if (2 <? m)%Z then (m - 3)%Z else (m + 9)%Z in
  let doy := ((153 * mp + 2) / 5 + d - 1)%Z in
  let doe := (yoe * 365 + yoe / 4 - yoe / 100 + doy)%Z in
  (era * 146097 + doe - 719468)%Z.

Definition is_leap (y : Z) : bool :=
  ((y mod 4 =? 0) && (negb (y mod 100 =? 0) || (y mod 400 =? 0)))%Z.

Definition days_in_month (y m : Z) : Z :=
  if (m =? 2)%Z then (if is_leap y then 29 else 28)
  else if ((m =? 4) || (m =? 6) || (m =? 9) || (m =? 11))%Z then 30
  else 31.

(** Exactly [n] digits, then the remainder. *)
Fixpoint fixed_digits (n : nat) (acc : Z) (s : string) : option (Z * string) :=
  match n with
  | O => Some (acc, s)
  | S n' =>
      match s with
      | String c s' =>
          match digit_of c with
          | Some d => fixed_digits n' (10 * acc + d)%Z s'
          | None => None
          end
      | EmptyString => None
      end
  end.

Definition expect (c : ascii) (s : string) : option string :=
  match s with
  | String d s' => if Ascii.eqb c d then Some s' else None
  | EmptyString => None
  end.

(** The first six digits of the fraction as microseconds; the digits after
    them are dropped. *)
Fixpoint micros (n : nat) (acc : Z) (s : string) : option (Z * string) :=
  match s with
  | String c s' =>
      match digit_of c with
      | Some d =>
          match n with
          | O => micros O acc s'
          | S n' => micros n' (10 * acc + d)%Z s'
          end
      | None => Some ((acc * 10 ^ Z.of_nat n)%Z, s)
      end
  | EmptyString => Some ((acc * 10 ^ Z.of_nat n)%Z, EmptyString)
  end.

(** [round] of a float: to nearest, ties to even. *)
Definition round_half_even (secs us : Z) : Z :=
  if (us <? 500000)%Z then secs
  else if (500000 <? us)%Z then (secs + 1)%Z
  else if Z.even secs then secs else (secs + 1)%Z.

Definition ascii_isoparse_utc (s : string) : option Z :=
  '(y, s) ← fixed_digits 4 0 s;
  s ← expect "-" s;
  '(mo, s) ← fixed_digits 2 0 s;
  s ← expect "-" s;
  '(d, s) ← fixed_digits 2 0 s;
  s ← expect "T" s;
  '(h, s) ← fixed_digits 2 0 s;
  s ← expect ":" s;
  '(mi, s) ← fixed_digits 2 0 s;
  s ← expect ":" s;
  '(sec, s) ← fixed_digits 2 0 s;
  '(us, s) ←
    match s with
    | String "." (String c r) =>
        match digit_of c with
        | Some _ => micros 6 0 (String c r)
        | None => None
        end
    | _ => Some (0%Z, s)
    end;
  if String.eqb s "Z"
     && ((1 <=? y) && (1 <=? mo) && (mo <=? 12) && (1 <=? d)
         && (d <=? days_in_month y mo) && (h <? 24) && (mi <? 60)
         && (sec <? 60))%Z
  then Some (round_half_even
               (days_from_civil y mo d * 86400 + h * 3600 + mi * 60 + sec)%Z
               us)
  else None.

Definition ascii_isoparse_timestamp (ts : json) : option Z :=
  match ts with
  | JStr s => ascii_isoparse_utc s
  | _ => None
  end.

Definition ascii_builtins : Builtins :=
  {| int_of_str := ascii_int_of_str;
     float_of_str := ascii_float_of_str;
     isoparse_timestamp := ascii_isoparse_timestamp |}.

(* ===================================================================== *)
(** ** Endpoint bodies used in the evaluated examples *)
(* ===================================================================== *)

(** A sample endpoint: one container with one sample. *)
Definition one_sample_body : json :=
  JDict [("c1",
          JDict [("aliases", JList [JStr "web"]);
                 ("spec", JDict [("image", JStr "nginx")]);
                 ("stats",
                  JList [JDict [("timestamp", JStr "2024-01-01T00:00:00Z");
                                ("memory", JDict [("usage", JInt 4096)])]])])].

Definition one_sample_poll (now : Z) : poll :=
  mkPoll false now (fun _ => Ok one_sample_body).

(** Container [c1] reports a sample whose memory usage is not a number,
    then a good sample; container [c2] reports a good sample. *)
Definition bad_memory_sample : json :=
  JDict [("timestamp", JStr "2024-01-01T00:00:00Z");
         ("memory", JDict [("usage", JStr "abc")])].

Definition bad_memory_entry : json :=
  JDict [("aliases", JList [JStr "web"]);
         ("stats",
          JList [bad_memory_sample;
                 JDict [("timestamp", JStr "2024-01-01T00:00:01Z")]])].

Definition other_entry : json :=
  JDict [("name", JStr "/docker/db");
         ("stats", JList [JDict [("timestamp", JStr "2024-01-01T00:00:00Z")]])].

Definition bad_memory_poll (now : Z) : poll :=
  mkPoll false now
         (fun _ => Ok (JDict [("c1", bad_memory_entry); ("c2", other_entry)])).

(** Container [c1] reports two samples taken 300 ms apart within one
    second, with different memory usage. *)
Definition early_sample : json :=
  JDict [("timestamp", JStr "2024-01-01T00:00:00.100Z");
         ("memory", JDict [("usage", JInt 1000)])].

Definition late_sample : json :=
  JDict [("timestamp", JStr "2024-01-01T00:00:00.400Z");
         ("memory", JDict [("usage", JInt 2000)])].

Definition same_second_entry : json :=
  JDict [("aliases", JList [JStr "web"]);
         ("stats", JList [early_sample; late_sample])].

Definition same_second_poll (now : Z) : poll :=
  mkPoll false now (fun _ => Ok (JDict [("c1", same_second_entry)])).

(** The line of [early_sample] collected at 1704067205. *)
Definition early_line : Row :=
  mkRow 1704067205 1704067200 (JStr "web") (JStr "") (FFin 0 1)
        1000 0 0 0 0 0 0 0 0 0.

(** An endpoint that is down. *)
Definition failing_poll : poll :=
  mkPoll false 0 (fun _ => Raise HTTPError).

(** Two rows, and a schedule in which the writer takes the first row in
    its blocking loop and then times out once, the caller puts the second
    row and sets the flag, and the second row is left for the drain. *)
Definition two_rows : list string :=
  ["1704067205,1704067200,web,nginx,0.0,4096,0,0,0,0,0,0,0,0,0" +:+ newline;
   "1704067205,1704067201,web,nginx,0.0,4100,0,0,0,0,0,0,0,0,0" +:+ newline].

Definition drain_schedule : list thread :=
  [Caller; Writer; Writer; Writer; Writer; Writer; Caller; Caller;
   Writer; Writer; Caller; Writer; Writer; Writer].

(** A container entry with the given samples, a poll answering with the
    given body, two good samples and one whose timestamp does not parse. *)
Definition entry_with (stats : list json) : json :=
  JDict [("aliases", JList [JStr "web"]); ("stats", JList stats)].

Definition poll_of (now : Z) (body : json) : poll :=
  mkPoll false now (fun _ => Ok body).

Definition sample_at_0 : json :=
  JDict [("timestamp", JStr "2024-01-01T00:00:00Z")].

Definition sample_at_1 : json :=
  JDict [("timestamp", JStr "2024-01-01T00:00:01Z")].

Definition unparsable_sample : json :=
  JDict [("timestamp", JStr "yesterday");
         ("memory", JDict [("usage", JStr "abc")])].

(** The line of a sample without metrics. *)
Definition zero_line (cts t : Z) : Row :=
  mkRow cts t (JStr "web") (JStr "") (FFin 0 1) 0 0 0 0 0 0 0 0 0 0.

(** The items of [one_sample_body]. *)
Definition one_sample_items : list (string * json) :=
  [("c1",
    JDict [("aliases", JList [JStr "web"]);
           ("spec", JDict [("image", JStr "nginx")]);
           ("stats",
            JList [JDict [("timestamp", JStr "2024-01-01T00:00:00Z");
                          ("memory", JDict [("usage", JInt 4096)])]])])].

(** Container [c1] reports a good sample; container [c2] reports a good
    sample and then one whose memory usage is not a number; container [c3]
    reports a good sample. *)
Definition late_failure_items : list (string * json) :=
  [("c1", entry_with [sample_at_0]);
   ("c2", entry_with [sample_at_1; bad_memory_sample]);
   ("c3", entry_with [sample_at_0])].

Definition late_failure_poll (now : Z) : poll :=
  poll_of now (JDict late_failure_items).

(** The instance when that poll, made at 1704067205 on a new instance,
    has gone through [c1], and when it has gone through the first sample
    of [c2]. *)
Definition after_c1 : collector :=
  {| seen_samples := {[("c1", 1704067200)]} ∪ ∅;
     write_queue := [(("c1", 1704067200),
                      zero_line 1704067205 1704067200)] |}.

Definition after_c2_first : collector :=
  {| seen_samples := {[("c2", 1704067201)]} ∪ ({[("c1", 1704067200)]} ∪ ∅);
     write_queue := [(("c1", 1704067200),
                      zero_line 1704067205 1704067200);
                     (("c2", 1704067201),
                      zero_line 1704067205 1704067201)] |}.

(** A container entry with an alias and a name that is not a string. *)
Definition aliased_entry_odd_name : json :=
  JDict [("aliases", JList [JStr "web"; JStr "web-1"]);
         ("name", JInt 5);
         ("stats", JList [sample_at_0])].

(* ===================================================================== *)
(** * Statements *)
(* ===================================================================== *)

(* --------------------------------------------------------------------- *)
(** ** Strings *)
(* --------------------------------------------------------------------- *)

Lemma append_empty_r (s : string) : s +:+ "" = s.
Proof. induction s as [|c s IH]; simpl; [reflexivity | now rewrite IH]. Qed.

Lemma append_assoc (x y z : string) : (x +:+ y) +:+ z = x +:+ (y +:+ z).
Proof. induction x as [|c x IH]; simpl; [reflexivity | now rewrite IH]. Qed.

Lemma append_inv_head (x y z : string) : x +:+ y = x +:+ z -> y = z.
Proof.
  induction x as [|c x IH]; simpl; intros E; [exact E |].
  injection E as E. auto.
Qed.

Lemma startswith_split (p s : string) :
  startswith p s = true -> exists t, s = p +:+ t.
Proof.
  revert s. induction p as [|c p IH]; intros s E.
  - exists s. reflexivity.
  - destruct s as [|d s]; simpl in E; [discriminate |].
    apply andb_true_iff in E as [E1 E2]. apply Ascii.eqb_eq in E1. subst d.
    destruct (IH _ E2) as [t ->]. exists t. reflexivity.
Qed.

Lemma contains_app (c : ascii) (x y : string) :
  contains c (x +:+ y) = contains c x || contains c y.
Proof.
  induction x as [|d x IH]; simpl; [reflexivity |].
  rewrite IH. now rewrite orb_assoc.
Qed.

Lemma rstrip_by_contains (p : ascii -> bool) (c : ascii) (s : string) :
  p c = false -> contains c s = true -> contains c (rstrip_by p s) = true.
Proof.
  intros Hp. induction s as [|d s IH]; simpl; [discriminate |].
  intros H. apply orb_true_iff in H as [H|H].
  - apply Ascii.eqb_eq in H. subst d.
    destruct (rstrip_by p s); simpl.
    + rewrite Hp. simpl. now rewrite Ascii.eqb_refl.
    + now rewrite Ascii.eqb_refl.
  - specialize (IH H). destruct (rstrip_by p s) as [|e r]; [discriminate |].
    change (contains c (String d (String e r)))
      with (Ascii.eqb c d || contains c (String e r)).
    rewrite IH. apply orb_true_r.
Qed.

Lemma contains_nonempty (c : ascii) (s : string) :
  contains c s = true -> s <> "".
Proof. destruct s; [discriminate | intros _; discriminate]. Qed.

Lemma rstrip_by_app (p : ascii -> bool) (x y : string) :
  rstrip_by p y <> "" -> rstrip_by p (x +:+ y) = x +:+ rstrip_by p y.
Proof.
  intros Hy. induction x as [|c x IH]; simpl; [reflexivity |].
  rewrite IH. destruct (x +:+ rstrip_by p y) eqn:E; [| reflexivity].
  destruct x; simpl in E; [contradiction | discriminate].
Qed.

Lemma rstrip_by_idem (p : ascii -> bool) (s : string) :
  rstrip_by p (rstrip_by p s) = rstrip_by p s.
Proof.
  induction s as [|c s IH]; simpl; [reflexivity |].
  destruct (rstrip_by p s) as [|d r] eqn:E.
  - destruct (p c) eqn:Hc; simpl; [reflexivity | now rewrite Hc].
  - change (rstrip_by p (String c (String d r)))
      with (match rstrip_by p (String d r) with
            | EmptyString => if p c then EmptyString else String c EmptyString
            | r' => String c r'
            end).
    now rewrite IH.
Qed.

Lemma rstrip_by_length (p : ascii -> bool) (s : string) :
  (String.length (rstrip_by p s) <= String.length s)%nat.
Proof.
  induction s as [|c s IH]; simpl; [lia |].
  destruct (rstrip_by p s); [destruct (p c) |]; simpl in *; lia.
Qed.

Lemma rstrip_by_same_length (p : ascii -> bool) (s : string) :
  String.length (rstrip_by p s) = String.length s -> rstrip_by p s = s.
Proof.
  induction s as [|c s IH]; simpl; [reflexivity |].
  pose proof (rstrip_by_length p s) as L.
  destruct (rstrip_by p s) as [|d r] eqn:E.
  - destruct (p c); simpl in *; intros H.
    + discriminate.
    + destruct s; [reflexivity | simpl in *; lia].
  - simpl in *. intros H. f_equal. apply IH. lia.
Qed.

(** A string none of whose characters satisfies [p] is left alone. *)
Lemma rstrip_by_none (p : ascii -> bool) (s : string) :
  (forall c, contains c s = true -> p c = false) -> rstrip_by p s = s.
Proof.
  induction s as [|c s IH]; simpl; intros H; [reflexivity |].
  rewrite IH.
  - destruct s; [| reflexivity].
    rewrite (H c); [reflexivity |]. now rewrite Ascii.eqb_refl.
  - intros d Hd. apply H. rewrite Hd. apply orb_true_r.
Qed.

Lemma lstrip_none (s : string) :
  (forall c, contains c s = true -> isspace c = false) -> lstrip s = s.
Proof.
  destruct s as [|c s]; simpl; intros H; [reflexivity |].
  rewrite (H c); [reflexivity |]. now rewrite Ascii.eqb_refl.
Qed.

Lemma contains_rstrip_by (p : ascii -> bool) (c : ascii) (s : string) :
  contains c (rstrip_by p s) = true -> contains c s = true.
Proof.
  induction s as [|d s IH]; simpl; [discriminate |].
  destruct (rstrip_by p s) as [|e r].
  - destruct (p d); simpl; [discriminate |].
    rewrite orb_false_r. intros ->. reflexivity.
  - change (contains c (String d (String e r)))
      with (Ascii.eqb c d || contains c (String e r)).
    intros H. apply orb_true_iff in H as [->|H]; [reflexivity |].
    rewrite (IH H). apply orb_true_r.
Qed.

Lemma contains_lstrip (c : ascii) (s : string) :
  contains c (lstrip s) = true -> contains c s = true.
Proof.
  induction s as [|d s IH]; simpl; [discriminate |].
  destruct (isspace d); simpl.
  - intros H. rewrite (IH H). apply orb_true_r.
  - auto.
Qed.

(* --------------------------------------------------------------------- *)
(** ** The shape of a normalised address *)
(* --------------------------------------------------------------------- *)

Lemma has_scheme_split (s : string) :
  has_scheme s = true -> exists sch t, is_scheme sch /\ s = sch +:+ t.
Proof.
  unfold has_scheme. intros H.
  apply orb_true_iff in H as [H|H]; apply startswith_split in H as [t ->].
  - exists "http://", t. split; [now left | reflexivity].
  - exists "https://", t. split; [now right | reflexivity].
Qed.

Lemma has_scheme_app (sch t : string) :
  is_scheme sch -> has_scheme (sch +:+ t) = true.
Proof.
  intros [-> | ->]; reflexivity.
Qed.

Lemma split_dslash_scheme (sch t : string) :
  is_scheme sch -> split_dslash_last (sch +:+ t) = t.
Proof. intros [-> | ->]; reflexivity. Qed.

Lemma rstrip_keeps_colon (p : ascii -> bool) (t : string) :
  p ":"%char = false -> contains ":" t = true -> rstrip_by p t <> "".
Proof.
  intros Hp Hc. apply (contains_nonempty ":"). now apply rstrip_by_contains.
Qed.

Lemma strip_scheme (sch t : string) :
  is_scheme sch -> contains ":" t = true ->
  strip (sch +:+ t) = sch +:+ rstrip_by isspace t.
Proof.
  intros Hs Hc. unfold strip.
  replace (lstrip (sch +:+ t)) with (sch +:+ t)
    by (destruct Hs as [-> | ->]; reflexivity).
  apply rstrip_by_app. now apply rstrip_keeps_colon.
Qed.

Lemma rstrip_slash_scheme (sch t : string) :
  contains ":" t = true -> rstrip_slash (sch +:+ t) = sch +:+ rstrip_slash t.
Proof.
  intros Hc. apply rstrip_by_app. now apply rstrip_keeps_colon.
Qed.

(** The base before the port test always starts with a scheme. *)
Lemma base_scheme (s : string) :
  exists sch t, is_scheme sch /\
    (if has_scheme s then s else "http://" +:+ s) = sch +:+ t.
Proof.
  destruct (has_scheme s) eqn:E.
  - now apply has_scheme_split.
  - exists "http://", s. split; [now left | reflexivity].
Qed.

(** What [get_cadvisor_base_url] returns: a scheme, then a remainder that
    holds a colon and has no trailing slash. *)
Lemma normalise_shape (a r : string) :
  get_cadvisor_base_url a = Ok r ->
  exists sch rest, is_scheme sch /\ r = sch +:+ rest /\
    contains ":" rest = true /\ rstrip_slash rest = rest.
Proof.
  unfold get_cadvisor_base_url.
  destruct (String.eqb a ""); [discriminate |].
  destruct (base_scheme (strip a)) as (sch & t & Hs & ->).
  rewrite (split_dslash_scheme _ _ Hs).
  destruct (contains ":" t) eqn:Hc; simpl; intros [= <-].
  - exists sch, (rstrip_slash t). rewrite rstrip_slash_scheme by assumption.
    repeat split; [assumption | | apply rstrip_by_idem].
    now apply rstrip_by_contains.
  - rewrite append_assoc.
    assert (Hc' : contains ":" (t +:+ ":8080") = true)
      by (rewrite contains_app; apply orb_true_r).
    exists sch, (rstrip_slash (t +:+ ":8080")).
    rewrite rstrip_slash_scheme by assumption.
    repeat split; [assumption | | apply rstrip_by_idem].
    now apply rstrip_by_contains.
Qed.

(** Normalising an address that already has a scheme and a colon only
    trims it. *)
Lemma normalise_scheme (sch t : string) :
  is_scheme sch -> contains ":" t = true ->
  get_cadvisor_base_url (sch +:+ t)
  = Ok (sch +:+ rstrip_slash (rstrip_by isspace t)).
Proof.
  intros Hs Hc. unfold get_cadvisor_base_url.
  replace (String.eqb (sch +:+ t) "") with false
    by (destruct Hs as [-> | ->]; reflexivity).
  rewrite strip_scheme by assumption.
  rewrite has_scheme_app by assumption.
  rewrite split_dslash_scheme by assumption.
  assert (Hc' : contains ":" (rstrip_by isspace t) = true)
    by now apply rstrip_by_contains.
  rewrite Hc'. simpl negb. cbv iota.
  now rewrite rstrip_slash_scheme.
Qed.

Lemma literal_not_space (c : ascii) :
  contains c "http://:8080" = true -> isspace c = false.
Proof.
  simpl. intros H.
  repeat (apply orb_true_iff in H as [H | H];
          [apply Ascii.eqb_eq in H; subst c; reflexivity |]).
  discriminate.
Qed.

(** A whitespace-free address normalises to a whitespace-free string. *)
Lemma normalise_no_space (a r : string) :
  (forall c, contains c a = true -> isspace c = false) ->
  get_cadvisor_base_url a = Ok r ->
  forall c, contains c r = true -> isspace c = false.
Proof.
  intros Ha. unfold get_cadvisor_base_url.
  destruct (String.eqb a ""); [discriminate |].
  assert (Hs : forall c, contains c (strip a) = true -> isspace c = false).
  { intros c Hc. apply Ha. apply contains_lstrip.
    now apply contains_rstrip_by in Hc. }
  assert (Hb : forall c,
             contains c (if has_scheme (strip a) then strip a
                         else "http://" +:+ strip a) = true ->
             isspace c = false).
  { intros c. destruct (has_scheme (strip a)); [apply Hs |].
    rewrite contains_app. intros H. apply orb_true_iff in H as [H | H].
    - apply literal_not_space. change "http://:8080" with ("http://" +:+ ":8080").
      rewrite contains_app, H. reflexivity.
    - now apply Hs. }
  intros [= <-] c Hc. apply contains_rstrip_by in Hc.
  destruct (negb _) in Hc; [| now apply Hb].
  rewrite contains_app in Hc. apply orb_true_iff in Hc as [H | H].
  - now apply Hb.
  - apply literal_not_space. change "http://:8080" with ("http://" +:+ ":8080").
    rewrite contains_app, H. apply orb_true_r.
Qed.

Lemma strip_no_space (r : string) :
  (forall c, contains c r = true -> isspace c = false) -> strip r = r.
Proof.
  intros H. unfold strip. rewrite lstrip_none by assumption.
  now apply rstrip_by_none.
Qed.

(* --------------------------------------------------------------------- *)
(** ** URL normalisation: the statements *)
(* --------------------------------------------------------------------- *)

(** C7 (as amended).  Normalising the result [r] of a normalisation again
    returns [r] exactly when [r] carries no trailing whitespace; this is the
    case whenever the address holds no whitespace character.  An address
    that starts with a scheme and has a colon after the ["//"] is returned
    with surrounding whitespace and trailing slashes trimmed, and otherwise
    unchanged. *)
Theorem url_normalization_idempotent (a r : string) :
  get_cadvisor_base_url a = Ok r ->
  (get_cadvisor_base_url r = Ok r <-> strip r = r)
  /\ ((forall c, contains c a = true -> isspace c = false) ->
      get_cadvisor_base_url r = Ok r)
  /\ (has_scheme a = true -> contains ":" (split_dslash_last a) = true ->
      r = rstrip_slash (strip a)).
Proof.
  intros Hr.
  assert (Hiff : get_cadvisor_base_url r = Ok r <-> strip r = r).
  { destruct (normalise_shape _ _ Hr) as (sch & rest & Hs & -> & Hc & Hrest).
    rewrite normalise_scheme, strip_scheme by assumption. split.
    - intros [= E]. apply append_inv_head in E. f_equal.
      apply rstrip_by_same_length.
      pose proof (rstrip_by_length is_slash (rstrip_by isspace rest)) as L1.
      pose proof (rstrip_by_length isspace rest) as L2.
      unfold rstrip_slash in E. rewrite E in L1. lia.
    - intros E. apply append_inv_head in E. rewrite E, Hrest. reflexivity. }
  split; [exact Hiff |]. split.
  - intros Ha. apply Hiff. apply strip_no_space.
    now apply (normalise_no_space a).
  - intros Hsch Hcol.
    destruct (has_scheme_split _ Hsch) as (sch & t & Hs & ->).
    rewrite split_dslash_scheme in Hcol by assumption.
    rewrite normalise_scheme in Hr by assumption. injection Hr as <-.
    rewrite strip_scheme by assumption.
    rewrite rstrip_slash_scheme; [reflexivity |].
    now apply rstrip_by_contains.
Qed.

Lemma url_normalization_idempotent_witness :
  get_cadvisor_base_url "http://host:9090/" = Ok "http://host:9090"
  /\ get_cadvisor_base_url "http://host:9090" = Ok "http://host:9090".
Proof.
  split; [reflexivity |].
  destruct (url_normalization_idempotent
              "http://host:9090/" "http://host:9090" eq_refl) as [[_ H] _].
  apply H. reflexivity.
Defined.

(** C7, the claim as stated, fails: the address ["http://h:1 /"] is not
    empty, it normalises to ["http://h:1 "] (the slash goes, the blank
    before it stays), and that result normalises to ["http://h:1"]. *)
Lemma url_normalization_not_idempotent :
  get_cadvisor_base_url "http://h:1 /" = Ok "http://h:1 "
  /\ get_cadvisor_base_url "http://h:1 " = Ok "http://h:1"
  /\ get_cadvisor_base_url "http://h:1 " <> Ok "http://h:1 ".
Proof. repeat split; try reflexivity. discriminate. Qed.

(** The base URL by cases on the stripped address, with [http://] put in
    front when it has no scheme: when what follows the ["//"] holds no
    colon the result is that base followed by [:8080], otherwise it is the
    base without its trailing slashes; in both cases the result starts
    with a scheme and does not end in a slash. *)
Lemma base_url_by_cases (a : string) :
  a <> "" ->
  let s := strip a in
  let base := if has_scheme s then s else "http://" +:+ s in
  has_scheme base = true
  /\ (has_scheme s = false -> base = "http://" +:+ s)
  /\ (contains ":" (split_dslash_last base) = false ->
      get_cadvisor_base_url a = Ok (base +:+ ":8080"))
  /\ (contains ":" (split_dslash_last base) = true ->
      get_cadvisor_base_url a = Ok (rstrip_slash base))
  /\ (exists r, get_cadvisor_base_url a = Ok r
                /\ has_scheme r = true /\ rstrip_slash r = r)
  /\ get_cadvisor_base_url "localhost" = Ok "http://localhost:8080"
  /\ get_cadvisor_base_url "http://host:9090" = Ok "http://host:9090"
  /\ get_cadvisor_base_url "http://host:9090/" = Ok "http://host:9090".
Proof.
  intros Ha s base.
  assert (Hne : String.eqb a "" = false) by now apply String.eqb_neq.
  assert (Hbase : has_scheme base = true).
  { subst base. destruct (has_scheme s) eqn:E; [exact E | reflexivity]. }
  assert (Hport : contains ":" (split_dslash_last base) = false ->
                  get_cadvisor_base_url a = Ok (base +:+ ":8080")).
  { intros Hc. unfold get_cadvisor_base_url. rewrite Hne.
    fold s. fold base. rewrite Hc. simpl negb. cbv iota. f_equal.
    unfold rstrip_slash. now rewrite rstrip_by_app. }
  assert (Hkeep : contains ":" (split_dslash_last base) = true ->
                  get_cadvisor_base_url a = Ok (rstrip_slash base)).
  { intros Hc. unfold get_cadvisor_base_url. rewrite Hne.
    fold s. fold base. now rewrite Hc. }
  repeat split; try reflexivity; try assumption.
  - intros E. subst base. now rewrite E.
  - destruct (get_cadvisor_base_url a) as [r | e] eqn:Hr.
    + exists r. split; [reflexivity |].
      destruct (normalise_shape _ _ Hr) as (sch & rest & Hs & -> & Hc & Hrest).
      split; [now apply has_scheme_app |].
      rewrite rstrip_slash_scheme by assumption. now rewrite Hrest.
    + case_eq (contains ":" (split_dslash_last base)); intros Hc;
        [specialize (Hkeep Hc) | specialize (Hport Hc)]; discriminate.
Qed.

(** C8.  What the code does where the address has no port and carries a
    slash: the port is put at the end of the whole address, after the
    slash, and the slash is not trimmed (the claim gives
    ["http://localhost:8080"] and ["http://host:8080"]); and a colon in
    the path counts as a port, so none is added.  ["localhost"] and
    ["http://host:9090"] come out as the claim says. *)
Theorem port_lands_after_the_slash :
  get_cadvisor_base_url "localhost/" = Ok "http://localhost/:8080"
  /\ get_cadvisor_base_url "http://host/" = Ok "http://host/:8080"
  /\ get_cadvisor_base_url "http://host/a:b" = Ok "http://host/a:b"
  /\ get_cadvisor_base_url "localhost" = Ok "http://localhost:8080"
  /\ get_cadvisor_base_url "http://host:9090" = Ok "http://host:9090"
  /\ get_cadvisor_base_url "http://host:9090/" = Ok "http://host:9090".
Proof. repeat split. Qed.

(* --------------------------------------------------------------------- *)
(** ** The metric extractor *)
(* --------------------------------------------------------------------- *)

Section Extractor.
Context {rt : Builtins}.

Lemma get_or2_dict (d : list (string * json)) (k1 k2 : string) :
  get_or2 (JDict d) k1 k2
  = Ok (py_or (lookup_or_null k1 d) (lookup_or_null k2 d)).
Proof.
  unfold get_or2, py_or, lookup_or_null. simpl.
  destruct (truthy _); reflexivity.
Qed.

Lemma get_or3_dict (d : list (string * json)) (k1 k2 k3 : string) :
  get_or3 (JDict d) k1 k2 k3
  = Ok (py_or (lookup_or_null k1 d)
              (py_or (lookup_or_null k2 d) (lookup_or_null k3 d))).
Proof.
  unfold get_or3, py_or, lookup_or_null. simpl.
  destruct (truthy _); [reflexivity |]. simpl.
  destruct (truthy _); reflexivity.
Qed.

Lemma or2_first_truthy (d : list (string * json)) (k1 k2 : string) :
  py_or (py_or (lookup_or_null k1 d) (lookup_or_null k2 d)) (JInt 0)
  = first_truthy [k1; k2] d.
Proof.
  unfold py_or. simpl.
  destruct (truthy (lookup_or_null k1 d)) eqn:E1; [now rewrite E1 |].
  destruct (truthy (lookup_or_null k2 d)) eqn:E2; reflexivity.
Qed.

Lemma or3_first_truthy (d : list (string * json)) (k1 k2 k3 : string) :
  py_or (py_or (lookup_or_null k1 d)
               (py_or (lookup_or_null k2 d) (lookup_or_null k3 d)))
        (JInt 0)
  = first_truthy [k1; k2; k3] d.
Proof.
  unfold py_or. simpl.
  destruct (truthy (lookup_or_null k1 d)) eqn:E1; [now rewrite E1 |].
  destruct (truthy (lookup_or_null k2 d)) eqn:E2; [now rewrite E2 |].
  destruct (truthy (lookup_or_null k3 d)) eqn:E3; reflexivity.
Qed.

(** The loop body never raises on a dict and always raises on anything
    else. *)
Lemma fs_entry_body_dict (tot : totals) (d : list (string * json)) :
  fs_entry_body tot (JDict d)
  = Ok (add_counters tot
          (py_or (lookup_or_null "reads" d) (lookup_or_null "readsCompleted" d))
          (py_or (lookup_or_null "writes" d)
                 (lookup_or_null "writesCompleted" d))
          (py_or (lookup_or_null "readBytes" d)
                 (py_or (lookup_or_null "readbytes" d)
                        (lookup_or_null "read_bytes" d)))
          (py_or (lookup_or_null "writeBytes" d)
                 (py_or (lookup_or_null "writebytes" d)
                        (lookup_or_null "write_bytes" d)))).
Proof.
  unfold fs_entry_body. rewrite !get_or2_dict, !get_or3_dict. reflexivity.
Qed.

Lemma fs_entry_body_not_dict (tot : totals) (v : json) :
  is_dict v = false -> fs_entry_body tot v = Raise AttributeError.
Proof. destruct v; simpl; intros E; solve [reflexivity | discriminate]. Qed.

Lemma for_each_entries_ok (entries : list json) (tot : totals) :
  is_ok (for_each fs_entry_body entries tot) = forallb is_dict entries.
Proof.
  revert tot. induction entries as [|v entries IH]; intros tot;
    [reflexivity |].
  simpl. destruct (is_dict v) eqn:E.
  - destruct v; try discriminate. rewrite fs_entry_body_dict. simpl.
    apply IH.
  - rewrite fs_entry_body_not_dict by assumption. reflexivity.
Qed.

Lemma filesystem_list_truthy (d : list (string * json)) :
  filesystem_list_of d = JList [] \/ truthy (filesystem_list_of d) = true.
Proof.
  unfold filesystem_list_of, py_or.
  destruct (truthy (lookup_or_null "filesystem" d)) eqn:E1; [now right |].
  destruct (truthy (lookup_or_null "fs" d)) eqn:E2; [now right | now left].
Qed.

(** The first three statements of the function on a dict. *)
Lemma extract_on_dict (d : list (string * json)) :
  extract_filesystem_counters (JDict d)
  = (entries ← py_iter (filesystem_list_of d);
     for_each fs_entry_body entries (0, 0, 0, 0)).
Proof.
  unfold extract_filesystem_counters, filesystem_list_of, py_or,
    lookup_or_null. simpl.
  destruct (truthy _); reflexivity.
Qed.

Lemma extract_ok_iff_shape (sample : json) :
  is_ok (extract_filesystem_counters sample) = sample_shape_ok sample.
Proof.
  destruct sample as [| | | | |l|d]; try reflexivity.
  rewrite extract_on_dict. unfold sample_shape_ok.
  destruct (filesystem_list_truthy d) as [E | E].
  - rewrite E. reflexivity.
  - destruct (filesystem_list_of d) as [| | | |s|l|d']; try reflexivity.
    + destruct s as [|c s]; [discriminate | reflexivity].
    + simpl. apply for_each_entries_ok.
    + destruct d' as [|[k v] d']; [discriminate | reflexivity].
Qed.

(** When the four counters of an entry convert, each is added to its
    total. *)
Lemma add_counters_convert (a b c e : Z) (d : list (string * json)) :
  counters_convert d = true ->
  add_counters (a, b, c, e)
    (py_or (lookup_or_null "reads" d) (lookup_or_null "readsCompleted" d))
    (py_or (lookup_or_null "writes" d) (lookup_or_null "writesCompleted" d))
    (py_or (lookup_or_null "readBytes" d)
           (py_or (lookup_or_null "readbytes" d)
                  (lookup_or_null "read_bytes" d)))
    (py_or (lookup_or_null "writeBytes" d)
           (py_or (lookup_or_null "writebytes" d)
                  (lookup_or_null "write_bytes" d)))
  = (a + counter reads_aliases d, b + counter writes_aliases d,
     c + counter read_bytes_aliases d, e + counter write_bytes_aliases d).
Proof.
  unfold counters_convert, counter, add_counters.
  rewrite !or2_first_truthy, !or3_first_truthy.
  fold reads_aliases writes_aliases read_bytes_aliases write_bytes_aliases.
  intros H. repeat (apply andb_true_iff in H as [H ?]).
  destruct (py_int (first_truthy reads_aliases d)); [| discriminate].
  destruct (py_int (first_truthy writes_aliases d)); [| discriminate].
  destruct (py_int (first_truthy read_bytes_aliases d)); [| discriminate].
  destruct (py_int (first_truthy write_bytes_aliases d)); [| discriminate].
  reflexivity.
Qed.

Lemma for_each_sums (ds : list (list (string * json))) (a b c e : Z) :
  forallb counters_convert ds = true ->
  for_each fs_entry_body (map JDict ds) (a, b, c, e)
  = Ok (a + sum_counter reads_aliases ds, b + sum_counter writes_aliases ds,
        c + sum_counter read_bytes_aliases ds,
        e + sum_counter write_bytes_aliases ds).
Proof.
  revert a b c e. induction ds as [|d ds IH]; intros a b c e H.
  - simpl. now rewrite !Z.add_0_r.
  - simpl in H. apply andb_true_iff in H as [Hd Hds].
    simpl. rewrite fs_entry_body_dict, add_counters_convert by assumption.
    simpl. rewrite IH by assumption. now rewrite !Z.add_assoc.
Qed.

End Extractor.

(** C3 (as amended).  [extract_filesystem_counters] returns without raising
    exactly on the samples that are a dict whose filesystem list ([filesystem],
    else [fs], else the empty list) is a list of dicts; on such a sample with
    an empty filesystem list the four totals are zero. *)
Theorem extractor_total_on_shape (rt : Builtins) (sample : json) :
  is_ok (extract_filesystem_counters sample) = sample_shape_ok sample
  /\ (forall d, sample = JDict d -> filesystem_list_of d = JList [] ->
      extract_filesystem_counters sample = Ok (0, 0, 0, 0)).
Proof.
  split; [apply extract_ok_iff_shape |].
  intros d -> E. rewrite extract_on_dict, E. reflexivity.
Qed.

Lemma extractor_total_on_shape_witness :
  @extract_filesystem_counters ascii_builtins
     (JDict [("timestamp", JStr "2024-01-01T00:00:00Z")])
  = Ok (0, 0, 0, 0).
Proof.
  destruct (extractor_total_on_shape ascii_builtins
              (JDict [("timestamp", JStr "2024-01-01T00:00:00Z")]))
    as [_ H].
  apply (H [("timestamp", JStr "2024-01-01T00:00:00Z")]); reflexivity.
Defined.

(** C3, the claim as stated, fails: a device entry that is not a dict, a
    filesystem value that cannot be iterated, and a sample that is not a
    dict each make the function raise. *)
Lemma extractor_raises_on_malformed :
  @extract_filesystem_counters ascii_builtins
     (JDict [("filesystem", JList [JInt 5])]) = Raise AttributeError
  /\ @extract_filesystem_counters ascii_builtins
       (JDict [("filesystem", JInt 5)]) = Raise TypeError
  /\ @extract_filesystem_counters ascii_builtins (JList [])
     = Raise AttributeError.
Proof. repeat split; reflexivity. Qed.

(** C5.  What the code does on a device whose [writes] is not numeric: the
    [reads] of that device, converted before the failure, stay in the
    total; its [readBytes] and [writeBytes] are dropped; the next device
    is summed.  The claim has the whole device skipped, which would give
    [(2, 0, 0, 0)]. *)
Theorem device_partly_counted_on_parse_error :
  @extract_filesystem_counters ascii_builtins
     (JDict [("filesystem",
              JList [JDict [("reads", JInt 3); ("writes", JStr "abc");
                            ("readBytes", JInt 100); ("writeBytes", JInt 50)];
                     JDict [("reads", JInt 2)]])])
  = Ok (5, 0, 0, 0).
Proof. reflexivity. Qed.

(** C6 (as amended).  On a dict sample whose filesystem list is a list of
    dict entries with convertible counters, each total is the sum over the
    entries of the counter's value, a counter resolving to the first of its
    aliases, in priority order, whose value is truthy, and to 0 when there
    is none.  So an alias with a truthy value wins over the aliases after
    it, while an alias whose value is 0, missing or otherwise falsy is
    passed over for the next one.  The entries
    [{reads:3, writes:1, readBytes:100}, {readsCompleted:2, writeBytes:50}]
    give [(5, 1, 100, 50)]. *)
Theorem extractor_totals (rt : Builtins) :
  (forall (d : list (string * json)) (ds : list (list (string * json))),
     filesystem_list_of d = JList (map JDict ds) ->
     forallb counters_convert ds = true ->
     extract_filesystem_counters (JDict d)
     = Ok (sum_counter reads_aliases ds, sum_counter writes_aliases ds,
           sum_counter read_bytes_aliases ds,
           sum_counter write_bytes_aliases ds))
  /\ (forall k aliases e,
        truthy (lookup_or_null k e) = true ->
        first_truthy (k :: aliases) e = lookup_or_null k e)
  /\ (forall k aliases e,
        truthy (lookup_or_null k e) = false ->
        first_truthy (k :: aliases) e = first_truthy aliases e)
  /\ extract_filesystem_counters
       (JDict [("filesystem",
                JList [JDict [("reads", JInt 3); ("writes", JInt 1);
                              ("readBytes", JInt 100)];
                       JDict [("readsCompleted", JInt 2);
                              ("writeBytes", JInt 50)]])])
     = Ok (5, 1, 100, 50)
  /\ extract_filesystem_counters
       (JDict [("filesystem",
                JList [JDict [("reads", JInt 4); ("readsCompleted", JInt 9)]])])
     = Ok (4, 0, 0, 0).
Proof.
  repeat split; try reflexivity.
  - intros d ds Hd Hds. rewrite extract_on_dict, Hd. simpl.
    now rewrite for_each_sums.
  - intros k aliases e H. simpl. now rewrite H.
  - intros k aliases e H. simpl. now rewrite H.
Qed.

Lemma extractor_totals_witness :
  @extract_filesystem_counters ascii_builtins
     (JDict [("fs",
              JList [JDict [("reads", JStr "3"); ("write_bytes", JInt 7)];
                     JDict [("readsCompleted", JInt 2);
                            ("writes", JBool true)]])])
  = Ok (5, 1, 0, 7).
Proof.
  destruct (extractor_totals ascii_builtins) as [H _].
  apply (H [("fs",
             JList [JDict [("reads", JStr "3"); ("write_bytes", JInt 7)];
                    JDict [("readsCompleted", JInt 2);
                           ("writes", JBool true)]])]
           [[("reads", JStr "3"); ("write_bytes", JInt 7)];
            [("readsCompleted", JInt 2); ("writes", JBool true)]]);
    reflexivity.
Defined.

(** C6, the claim as stated, fails where the higher-priority alias is 0:
    the entry [{reads:0, readsCompleted:7}] counts 7 reads, not 0. *)
Lemma zero_alias_falls_through :
  @extract_filesystem_counters ascii_builtins
     (JDict [("filesystem",
              JList [JDict [("reads", JInt 0); ("readsCompleted", JInt 7)]])])
  = Ok (7, 0, 0, 0).
Proof. reflexivity. Qed.

(* --------------------------------------------------------------------- *)
(** ** The collector: what one poll does to the instance *)
(* --------------------------------------------------------------------- *)

Lemma extends_refl (st : collector) : extends st st.
Proof.
  split; [set_solver |]. exists []. rewrite app_nil_r.
  split; [reflexivity |]. split; [constructor |].
  intros k Hk. inversion Hk.
Qed.

Lemma extends_trans (st1 st2 st3 : collector) :
  extends st1 st2 -> extends st2 st3 -> extends st1 st3.
Proof.
  intros (S12 & new1 & Q1 & N1 & K1) (S23 & new2 & Q2 & N2 & K2).
  split; [etransitivity; eassumption |]. exists (new1 ++ new2).
  split; [rewrite Q2, Q1; now rewrite app_assoc |].
  rewrite map_app. split.
  - apply NoDup_app. repeat split; [assumption | | assumption].
    intros k H1 H2. apply K1 in H1. apply K2 in H2. tauto.
  - intros k Hk. apply elem_of_app in Hk as [Hk | Hk].
    + apply K1 in Hk as [Hn Hi]. split; [exact Hn | exact (S23 _ Hi)].
    + apply K2 in Hk as [Hn Hi]. split; [| exact Hi].
      intros H. apply Hn. exact (S12 _ H).
Qed.

Lemma extends_mark_seen (k : sample_key) (st : collector) :
  extends st (mark_seen k st).
Proof.
  split; [simpl; set_solver |]. exists []. simpl. rewrite app_nil_r.
  split; [reflexivity |]. split; [constructor |].
  intros k' Hk. inversion Hk.
Qed.

Lemma extends_put (k : sample_key) (line : Row) (st : collector) :
  k ∉ seen_samples st ->
  extends st {| seen_samples := {[k]} ∪ seen_samples st;
                write_queue := write_queue st ++ [(k, line)] |}.
Proof.
  intros Hk. split; [simpl; set_solver |]. exists [(k, line)]. simpl.
  split; [reflexivity |]. split; [apply NoDup_singleton |].
  intros k' H. apply list_elem_of_singleton in H. subst k'.
  split; [assumption | set_solver].
Qed.

Lemma extends_queue_sound (st st' : collector) :
  extends st st' -> queue_sound st -> queue_sound st'.
Proof.
  intros (S & new & Q & N & K) (Hin & Hnd). unfold queue_sound, queued_keys.
  rewrite Q, map_app. split.
  - intros k Hk. apply elem_of_app in Hk as [Hk | Hk].
    + exact (S _ (Hin _ Hk)).
    + now apply K.
  - apply NoDup_app. repeat split; [assumption | | assumption].
    intros k H1 H2. apply Hin in H1. apply K in H2. tauto.
Qed.

Lemma queue_sound_new : queue_sound new_collector.
Proof.
  split; [intros k Hk; inversion Hk | constructor].
Qed.

Section Collector.
Context {rt : Builtins}.

(** The four ways an iteration over one sample ends. *)
Lemma sample_body_cases (cts : Z) (cid : string) (svc img : json)
    (st : collector) (s : json) :
  (exists e, sample_body cts cid svc img st s = (st, Raise e))
  \/ sample_body cts cid svc img st s = (st, Ok tt)
  \/ (exists t e, ((cid, t) ∉ seen_samples st)
        /\ build_line cts t svc img s = Raise e
        /\ sample_body cts cid svc img st s
           = (mark_seen (cid, t) st, Raise e))
  \/ (exists t line, ((cid, t) ∉ seen_samples st)
        /\ build_line cts t svc img s = Ok line
        /\ sample_body cts cid svc img st s
           = ({| seen_samples := {[(cid, t)]} ∪ seen_samples st;
                 write_queue := write_queue st ++ [((cid, t), line)] |},
              Ok tt)).
Proof.
  unfold sample_body.
  destruct (py_get s "timestamp" JNull) as [ts | e]; [| left; eauto].
  destruct (truthy ts); simpl; [| right; left; reflexivity].
  destruct (isoparse_timestamp ts) as [t |]; [| right; left; reflexivity].
  case_bool_decide as Hseen; [right; left; reflexivity |].
  destruct (build_line cts t svc img s) as [line | e] eqn:Hb.
  - right; right; right. exists t, line. auto.
  - right; right; left. exists t, e. auto.
Qed.

Lemma sample_body_extends (cts : Z) (cid : string) (svc img : json)
    (st : collector) (s : json) :
  extends st (fst (sample_body cts cid svc img st s)).
Proof.
  destruct (sample_body_cases cts cid svc img st s)
    as [[e ->] | [-> | [(t & e & Hk & _ & ->) | (t & line & Hk & _ & ->)]]];
    simpl.
  - apply extends_refl.
  - apply extends_refl.
  - apply extends_mark_seen.
  - now apply extends_put.
Qed.

Lemma for_each_st_extends {A : Type}
    (body : collector -> A -> collector * res unit) (l : list A)
    (st : collector) :
  (forall st x, extends st (fst (body st x))) ->
  extends st (fst (for_each_st body l st)).
Proof.
  intros Hbody. revert st. induction l as [|x l IH]; intros st; simpl.
  - apply extends_refl.
  - specialize (Hbody st x). destruct (body st x) as [st' [[]|e]]; simpl in *.
    + eapply extends_trans; [exact Hbody | apply IH].
    + exact Hbody.
Qed.

Lemma container_body_extends (cts : Z) (st : collector)
    (item : string * json) :
  extends st (fst (container_body cts st item)).
Proof.
  destruct item as [cid entry]. unfold container_body.
  destruct (container_fields entry) as [[[svc img] stats] | e]; simpl.
  - apply for_each_st_extends. intros. apply sample_body_extends.
  - apply extends_refl.
Qed.

Lemma collect_once_extends (address : string) (p : poll) (st : collector) :
  extends st (fst (collect_once address p st)).
Proof.
  unfold collect_once.
  destruct (stop_is_set p); [apply extends_refl |].
  destruct (get_cadvisor_base_url address) as [base | e];
    [| apply extends_refl].
  destruct (http_get p _) as [data | e]; [| apply extends_refl].
  destruct data; try apply extends_refl.
  apply for_each_st_extends. intros. apply container_body_extends.
Qed.

Lemma collect_many_extends (address : string) (polls : list poll)
    (st : collector) :
  extends st (collect_many address polls st).
Proof.
  revert st. induction polls as [|p polls IH]; intros st; simpl.
  - apply extends_refl.
  - eapply extends_trans; [apply collect_once_extends | apply IH].
Qed.

(** A sample whose key is already seen is passed over, whatever else it
    holds. *)
Lemma sample_body_seen (cts : Z) (cid : string) (svc img : json)
    (st : collector) (s ts : json) (t : Z) :
  py_get s "timestamp" JNull = Ok ts ->
  isoparse_timestamp ts = Some t ->
  (cid, t) ∈ seen_samples st ->
  sample_body cts cid svc img st s = (st, Ok tt).
Proof.
  intros Hts Ht Hk. unfold sample_body. rewrite Hts.
  destruct (truthy ts); simpl; [| reflexivity].
  rewrite Ht. now rewrite bool_decide_eq_true_2.
Qed.

End Collector.

Section CollectorSteps.
Context {rt : Builtins}.

(** A fresh sample whose line cannot be built: the key is marked, nothing
    is put, the exception leaves the loop body. *)
Lemma sample_body_fails (cts : Z) (cid : string) (svc img : json)
    (st : collector) (s ts : json) (t : Z) (e : exn) :
  py_get s "timestamp" JNull = Ok ts ->
  truthy ts = true ->
  isoparse_timestamp ts = Some t ->
  (cid, t) ∉ seen_samples st ->
  build_line cts t svc img s = Raise e ->
  sample_body cts cid svc img st s = (mark_seen (cid, t) st, Raise e).
Proof.
  intros Hts Htr Ht Hk Hb. unfold sample_body.
  rewrite Hts, Htr. simpl. rewrite Ht.
  rewrite bool_decide_eq_false_2 by assumption. now rewrite Hb.
Qed.

(** A fresh sample whose line is built: the key is marked and the line is
    put. *)
Lemma sample_body_puts (cts : Z) (cid : string) (svc img : json)
    (st : collector) (s ts : json) (t : Z) (line : Row) :
  py_get s "timestamp" JNull = Ok ts ->
  truthy ts = true ->
  isoparse_timestamp ts = Some t ->
  (cid, t) ∉ seen_samples st ->
  build_line cts t svc img s = Ok line ->
  sample_body cts cid svc img st s
  = ({| seen_samples := {[(cid, t)]} ∪ seen_samples st;
        write_queue := write_queue st ++ [((cid, t), line)] |}, Ok tt).
Proof.
  intros Hts Htr Ht Hk Hb. unfold sample_body.
  rewrite Hts, Htr. simpl. rewrite Ht.
  rewrite bool_decide_eq_false_2 by assumption. now rewrite Hb.
Qed.

(** Every state the instance reaches from its creation is sound. *)
Lemma reachable_sound (address : string) (polls : list poll) :
  queue_sound (collect_many address polls new_collector).
Proof.
  eapply extends_queue_sound;
    [apply collect_many_extends | apply queue_sound_new].
Qed.

(** A series of polls puts no line under a key that was seen before it. *)
Lemma seen_key_not_put (address : string) (polls : list poll)
    (st : collector) (k : sample_key) :
  k ∈ seen_samples st ->
  exists new, write_queue (collect_many address polls st)
              = write_queue st ++ new
              /\ k ∉ map fst new.
Proof.
  intros Hk.
  destruct (collect_many_extends address polls st) as (_ & new & Q & _ & K).
  exists new. split; [exact Q |].
  intros H. apply K in H as [H _]. contradiction.
Qed.

End CollectorSteps.

(* --------------------------------------------------------------------- *)
(** ** The collector: polls that go through, and the loop *)
(* --------------------------------------------------------------------- *)

Lemma lines_under_app (k : sample_key) (q1 q2 : list (sample_key * Row)) :
  lines_under k (q1 ++ q2) = (lines_under k q1 + lines_under k q2)%nat.
Proof. unfold lines_under. now rewrite List.filter_app, length_app. Qed.

Lemma lines_under_absent (k : sample_key) (q : list (sample_key * Row)) :
  k ∉ map fst q -> lines_under k q = O.
Proof.
  unfold lines_under. induction q as [|[k' r] q IH]; simpl; [reflexivity |].
  intros H. case_bool_decide as E.
  - exfalso. apply H. simpl in E. subst k'. apply list_elem_of_here.
  - apply IH. intros Hin. apply H. now apply list_elem_of_further.
Qed.

Lemma lines_under_present (k : sample_key) (q : list (sample_key * Row)) :
  NoDup (map fst q) -> k ∈ map fst q -> lines_under k q = 1%nat.
Proof.
  induction q as [|[k' r] q IH]; simpl; intros Hnd Hin.
  - inversion Hin.
  - apply NoDup_cons in Hnd as [Hk' Hnd].
    change (lines_under k ((k', r) :: q))
      with (lines_under k ([(k', r)] ++ q)).
    rewrite lines_under_app. unfold lines_under at 1. simpl.
    case_bool_decide as E; simpl in E.
    + subst k'. now rewrite lines_under_absent.
    + apply elem_of_cons in Hin as [-> | Hin]; [contradiction |].
      now rewrite IH.
Qed.

Lemma lines_under_le (k : sample_key) (q : list (sample_key * Row)) :
  NoDup (map fst q) -> (lines_under k q <= 1)%nat.
Proof.
  intros Hnd. destruct (decide (k ∈ map fst q)) as [Hin | Hin].
  - now rewrite lines_under_present.
  - rewrite lines_under_absent by assumption. lia.
Qed.

Section CollectorRuns.
Context {rt : Builtins}.

Lemma for_each_st_cons_ok {A : Type}
    (body : collector -> A -> collector * res unit) (x : A) (l : list A)
    (st st1 : collector) :
  for_each_st body (x :: l) st = (st1, Ok tt) ->
  exists sta, body st x = (sta, Ok tt)
              /\ for_each_st body l sta = (st1, Ok tt).
Proof.
  simpl. destruct (body st x) as [sta [[]|e]]; [eauto | discriminate].
Qed.

Lemma for_each_st_app {A : Type}
    (body : collector -> A -> collector * res unit) (l1 l2 : list A)
    (st sta : collector) :
  for_each_st body l1 st = (sta, Ok tt) ->
  for_each_st body (l1 ++ l2) st = for_each_st body l2 sta.
Proof.
  revert st. induction l1 as [|x l1 IH]; intros st H.
  - simpl in H. now injection H as ->.
  - apply for_each_st_cons_ok in H as (stx & Hx & Hl).
    simpl. rewrite Hx. now apply IH.
Qed.

Lemma extends_queued_keys (st st' : collector) (k : sample_key) :
  extends st st' -> k ∈ queued_keys st -> k ∈ queued_keys st'.
Proof.
  intros (_ & new & Q & _) H. unfold queued_keys in *.
  rewrite Q, map_app. apply elem_of_app. now left.
Qed.

(** A loop that goes through: every key seen at its end was seen at its
    start or has its line in the queue. *)
Lemma sample_body_ok_covered (cts : Z) (cid : string) (svc img : json)
    (st st1 : collector) (s : json) :
  sample_body cts cid svc img st s = (st1, Ok tt) ->
  forall k, k ∈ seen_samples st1 ->
            k ∈ seen_samples st \/ k ∈ queued_keys st1.
Proof.
  intros H k Hk.
  destruct (sample_body_cases cts cid svc img st s)
    as [[e E] | [E | [(t & e & _ & _ & E) | (t & line & _ & _ & E)]]];
    rewrite E in H; try discriminate H.
  - injection H as <-. now left.
  - injection H as <-. simpl in Hk.
    apply elem_of_union in Hk as [Hk | Hk]; [| now left].
    apply elem_of_singleton in Hk. subst k. right.
    unfold queued_keys. simpl. rewrite map_app. apply elem_of_app.
    right. simpl. apply list_elem_of_here.
Qed.

Lemma for_each_st_ok_covered {A : Type}
    (body : collector -> A -> collector * res unit) (l : list A)
    (st st1 : collector) :
  (forall st x, extends st (fst (body st x))) ->
  (forall st x st1, body st x = (st1, Ok tt) ->
     forall k, k ∈ seen_samples st1 ->
               k ∈ seen_samples st \/ k ∈ queued_keys st1) ->
  for_each_st body l st = (st1, Ok tt) ->
  forall k, k ∈ seen_samples st1 ->
            k ∈ seen_samples st \/ k ∈ queued_keys st1.
Proof.
  intros Hext Hcov. revert st. induction l as [|x l IH]; intros st H k Hk.
  - simpl in H. injection H as <-. now left.
  - apply for_each_st_cons_ok in H as (sta & Hx & Hl).
    destruct (IH sta Hl k Hk) as [Hs | Hq]; [| now right].
    destruct (Hcov st x sta Hx k Hs) as [Hs' | Hq]; [now left |].
    right. apply (extends_queued_keys sta); [| exact Hq].
    pose proof (for_each_st_extends body l sta Hext) as X.
    now rewrite Hl in X.
Qed.

Lemma container_body_ok_covered (cts : Z) (st st1 : collector)
    (item : string * json) :
  container_body cts st item = (st1, Ok tt) ->
  forall k, k ∈ seen_samples st1 ->
            k ∈ seen_samples st \/ k ∈ queued_keys st1.
Proof.
  destruct item as [cid entry]. unfold container_body.
  destruct (container_fields entry) as [[[svc img] stats] |];
    [| discriminate].
  apply for_each_st_ok_covered.
  - intros. apply sample_body_extends.
  - intros st0 x st2. apply sample_body_ok_covered.
Qed.

(** A loop that goes through marks the key of every sample whose
    timestamp parses. *)
Lemma sample_body_ok_marks (cts : Z) (cid : string) (svc img : json)
    (st st1 : collector) (s ts : json) (t : Z) :
  sample_body cts cid svc img st s = (st1, Ok tt) ->
  py_get s "timestamp" JNull = Ok ts ->
  truthy ts = true ->
  isoparse_timestamp ts = Some t ->
  (cid, t) ∈ seen_samples st1.
Proof.
  intros H Hts Htr Ht. unfold sample_body in H.
  rewrite Hts, Htr in H. simpl in H. rewrite Ht in H.
  case_bool_decide as Hk.
  - now injection H as <-.
  - destruct (build_line cts t svc img s); [| discriminate H].
    injection H as <-. simpl. set_solver.
Qed.

Lemma samples_ok_mark (cts : Z) (cid : string) (svc img : json)
    (stats : list json) (st st1 : collector) (s ts : json) (t : Z) :
  for_each_st (sample_body cts cid svc img) stats st = (st1, Ok tt) ->
  s ∈ stats ->
  py_get s "timestamp" JNull = Ok ts ->
  truthy ts = true ->
  isoparse_timestamp ts = Some t ->
  (cid, t) ∈ seen_samples st1.
Proof.
  intros H Hin Hts Htr Ht. revert st H.
  induction stats as [|x stats IH]; intros st H; [inversion Hin |].
  apply for_each_st_cons_ok in H as (sta & Hx & Hl).
  apply elem_of_cons in Hin as [<- | Hin].
  - pose proof (for_each_st_extends (sample_body cts cid svc img) stats sta
                  (sample_body_extends cts cid svc img)) as [X _].
    rewrite Hl in X. apply X.
    now apply (sample_body_ok_marks cts cid svc img st sta s ts t).
  - now apply (IH Hin sta).
Qed.

Lemma containers_ok_mark (cts : Z) (data : list (string * json))
    (st st1 : collector) (cid : string) (entry svc img : json)
    (stats : list json) (s ts : json) (t : Z) :
  for_each_st (container_body cts) data st = (st1, Ok tt) ->
  (cid, entry) ∈ data ->
  container_fields entry = Ok (svc, img, stats) ->
  s ∈ stats ->
  py_get s "timestamp" JNull = Ok ts ->
  truthy ts = true ->
  isoparse_timestamp ts = Some t ->
  (cid, t) ∈ seen_samples st1.
Proof.
  intros H Hin Hf Hs Hts Htr Ht. revert st H.
  induction data as [|x data IH]; intros st H; [inversion Hin |].
  apply for_each_st_cons_ok in H as (sta & Hx & Hl).
  apply elem_of_cons in Hin as [<- | Hin].
  - pose proof (for_each_st_extends (container_body cts) data sta
                  (container_body_extends cts)) as [X _].
    rewrite Hl in X. apply X.
    unfold container_body in Hx. rewrite Hf in Hx.
    now apply (samples_ok_mark cts cid svc img stats st sta s ts t).
  - now apply (IH Hin sta).
Qed.

(** The loop ends by the flag only, and what it leaves extends what it
    found. *)
Lemma collect_loop_shape (address : string) (ticks : list tick)
    (st : collector) :
  (fst (collect_loop address ticks st) = Stopped
   <-> Exists (fun t => stop_at_loop_test t = true) ticks)
  /\ extends st (snd (collect_loop address ticks st)).
Proof.
  revert st. induction ticks as [|t ticks IH]; intros st; simpl.
  - split; [| apply extends_refl]. split; [discriminate |].
    intros H. inversion H.
  - destruct (stop_at_loop_test t) eqn:Ht.
    + split; [| apply extends_refl]. split; [| reflexivity].
      intros _. now constructor.
    + pose proof (collect_once_extends address (tick_poll t) st) as Hext.
      destruct (collect_once address (tick_poll t) st) as [st' r].
      simpl in Hext. destruct (IH st') as [[I1 I2] I3]. split.
      * split; [intros H; apply Exists_cons_tl; auto |].
        intros H. apply I2. inversion H; subst; [congruence | assumption].
      * eapply extends_trans; eassumption.
Qed.

(** A key that is seen and has no line keeps both over whatever
    follows. *)
Lemma seen_unqueued_stays (st st' : collector) (k : sample_key) :
  extends st st' ->
  k ∈ seen_samples st -> k ∉ queued_keys st ->
  k ∈ seen_samples st' /\ k ∉ queued_keys st'.
Proof.
  intros (S & new & Q & _ & K) Hs Hq. split; [exact (S _ Hs) |].
  unfold queued_keys in *. rewrite Q, map_app. intros H.
  apply elem_of_app in H as [H | H]; [contradiction |].
  apply K in H as [H _]. contradiction.
Qed.

End CollectorRuns.

(* --------------------------------------------------------------------- *)
(** ** The collector: the statements *)
(* --------------------------------------------------------------------- *)

(** C2 (as amended).  Let [st] be a state the instance reaches from its
    creation.  A poll never takes a key out of the seen-set, and at every
    moment no key has been put twice, so a key has at most one line.  A key
    that is seen stays seen over any further series of polls, which put no
    line under it: its number of lines does not change.  A key that is not
    seen yet and is fed by a poll that goes through without raising has
    exactly one line after that poll, and exactly one after any further
    series of polls, whether they feed it again or not. *)
Theorem deduplication (rt : Builtins) (address base : string)
    (before later : list poll) (p : poll) (k : sample_key)
    (data : list (string * json)) (st1 : collector) :
  let st := collect_many address before new_collector in
  seen_samples st ⊆ seen_samples (fst (collect_once address p st))
  /\ NoDup (queued_keys (collect_many address later st))
  /\ (rows_under k (collect_many address later st) <= 1)%nat
  /\ (k ∈ seen_samples st ->
      k ∈ seen_samples (collect_many address later st)
      /\ (exists new, write_queue (collect_many address later st)
                      = write_queue st ++ new
                      /\ k ∉ map fst new)
      /\ rows_under k (collect_many address later st) = rows_under k st)
  /\ (k ∉ seen_samples st ->
      stop_is_set p = false ->
      get_cadvisor_base_url address = Ok base ->
      http_get p (base +:+ "/api/v1.3/docker/") = Ok (JDict data) ->
      snapshot_has_key data k ->
      collect_once address p st = (st1, Ok tt) ->
      rows_under k st1 = 1%nat
      /\ rows_under k (collect_many address later st1) = 1%nat).
Proof.
  intros st.
  assert (Hsound : forall polls,
             queue_sound (collect_many address polls st)).
  { intros polls. eapply extends_queue_sound;
      [apply collect_many_extends | apply reachable_sound]. }
  split; [apply collect_once_extends |].
  split; [apply (Hsound later) |].
  split; [apply lines_under_le, (Hsound later) |].
  split.
  - intros Hk.
    destruct (seen_key_not_put address later st k Hk) as (new & Q & Hnew).
    split; [| split].
    + destruct (collect_many_extends address later st) as [S _].
      exact (S _ Hk).
    + now exists new.
    + unfold rows_under. rewrite Q, lines_under_app.
      rewrite (lines_under_absent k new) by assumption. lia.
  - intros Hk Hstop Hbase Hget Hfeed Honce.
    destruct Hfeed as (entry & svc & img & stats & s & ts
                       & Hin & Hf & Hs & Hts & Htr & Ht).
    destruct k as [cid t]. simpl in Hin, Ht.
    pose proof Honce as Hloop. unfold collect_once in Hloop.
    rewrite Hstop, Hbase, Hget in Hloop.
    assert (Hseen1 : (cid, t) ∈ seen_samples st1)
      by exact (containers_ok_mark _ _ _ _ _ _ _ _ _ _ _ _
                  Hloop Hin Hf Hs Hts Htr Ht).
    assert (Hq1 : (cid, t) ∈ queued_keys st1).
    { destruct (for_each_st_ok_covered (container_body (utcnow p)) data
                  st st1 (container_body_extends (utcnow p))
                  (fun st0 x st2 =>
                     container_body_ok_covered (utcnow p) st0 st2 x) Hloop
                  (cid, t) Hseen1) as [H | H]; [contradiction | exact H]. }
    assert (Hs1 : queue_sound st1).
    { pose proof (collect_once_extends address p st) as X.
      rewrite Honce in X. eapply extends_queue_sound; [exact X |].
      apply (Hsound []). }
    assert (H1 : rows_under (cid, t) st1 = 1%nat)
      by (apply lines_under_present; [apply Hs1 | exact Hq1]).
    split; [exact H1 |].
    destruct (seen_key_not_put address later st1 _ Hseen1)
      as (new & Q & Hnew).
    unfold rows_under in *. rewrite Q, lines_under_app, H1.
    rewrite (lines_under_absent _ new) by assumption. reflexivity.
Qed.

Lemma deduplication_witness :
  rows_under ("c1", 1704067200)
    (@collect_many ascii_builtins "localhost"
       [one_sample_poll 1704067205; one_sample_poll 1704067215]
       new_collector) = 1%nat.
Proof.
  assert (Hk : ("c1", 1704067200) ∉ seen_samples
             (@collect_many ascii_builtins "localhost" [] new_collector))
    by (simpl; set_solver).
  assert (Hfeed : @snapshot_has_key ascii_builtins one_sample_items
                    ("c1", 1704067200)).
  { eexists _, (JStr "web"), (JStr "nginx"), _, _,
      (JStr "2024-01-01T00:00:00Z").
    split; [apply list_elem_of_here |].
    split; [reflexivity |].
    split; [apply list_elem_of_here |].
    repeat split. }
  destruct (deduplication ascii_builtins "localhost"
              "http://localhost:8080" []
              [one_sample_poll 1704067215] (one_sample_poll 1704067205)
              ("c1", 1704067200) one_sample_items
              (fst (@collect_once ascii_builtins "localhost"
                      (one_sample_poll 1704067205) new_collector)))
    as (_ & _ & _ & _ & H).
  destruct (H Hk eq_refl eq_refl eq_refl Hfeed) as [_ H2];
    [vm_compute; reflexivity | exact H2].
Defined.

(** C2, the claim as stated, fails: the key [("c1", 1704067200)] is fed by
    two polls in a row and is seen after them, yet no line was put under
    it, because the line of its sample cannot be built. *)
Lemma no_row_when_line_fails :
  @snapshot_has_key ascii_builtins
     [("c1", bad_memory_entry); ("c2", other_entry)] ("c1", 1704067200)
  /\ ("c1", 1704067200) ∈ seen_samples
       (@collect_many ascii_builtins "localhost"
          [bad_memory_poll 1704067205; bad_memory_poll 1704067215]
          new_collector)
  /\ rows_under ("c1", 1704067200)
       (@collect_many ascii_builtins "localhost"
          [bad_memory_poll 1704067205; bad_memory_poll 1704067215]
          new_collector) = O.
Proof.
  split; [| split].
  - exists bad_memory_entry, (JStr "web"), (JStr ""),
      [bad_memory_sample;
       JDict [("timestamp", JStr "2024-01-01T00:00:01Z")]],
      bad_memory_sample, (JStr "2024-01-01T00:00:00Z").
    split; [apply list_elem_of_here |].
    split; [reflexivity |].
    split; [apply list_elem_of_here |].
    repeat split.
  - apply (bool_decide_unpack _). vm_compute. exact I.
  - vm_compute. reflexivity.
Qed.

(** C9.  Let [st] be a state the instance reaches from its creation.  A
    poll goes through the containers [before] and the samples [pre] of the
    next container without raising, reaching the state [stb], and then
    meets a sample whose timestamp parses to [t], whose key [(cid, t)] is
    not seen in [stb], and whose line cannot be built ([build_line] raises
    [e]).  Then [collect_once] ends by raising [e] in the state [stb] with
    the key marked and nothing put for it, the samples and containers
    after it being left unread.  [collect_loop] is not ended by the
    exception: whatever turns follow, it exits exactly when one of them
    finds the stop flag set, and in the state it leaves the key is seen
    and has no line.  The sample is passed over in every state in which
    its key is seen, and no later series of polls puts a line under the
    key. *)
Theorem seen_mark_survives_failure (rt : Builtins) (address base : string)
    (earlier later : list poll) (ticks : list tick) (p : poll)
    (cid : string) (entry svc img s ts : json) (pre post : list json)
    (before after : list (string * json)) (sta stb : collector)
    (t : Z) (e : exn) :
  let st := collect_many address earlier new_collector in
  stop_is_set p = false ->
  get_cadvisor_base_url address = Ok base ->
  http_get p (base +:+ "/api/v1.3/docker/")
  = Ok (JDict (before ++ (cid, entry) :: after)) ->
  for_each_st (container_body (utcnow p)) before st = (sta, Ok tt) ->
  container_fields entry = Ok (svc, img, pre ++ s :: post) ->
  for_each_st (sample_body (utcnow p) cid svc img) pre sta = (stb, Ok tt) ->
  py_get s "timestamp" JNull = Ok ts ->
  truthy ts = true ->
  isoparse_timestamp ts = Some t ->
  (cid, t) ∉ seen_samples stb ->
  build_line (utcnow p) t svc img s = Raise e ->
  collect_once address p st = (mark_seen (cid, t) stb, Raise e)
  /\ write_queue (mark_seen (cid, t) stb) = write_queue stb
  /\ ((cid, t) ∉ queued_keys (mark_seen (cid, t) stb))
  /\ (fst (collect_loop address (mkTick false p :: ticks) st) = Stopped
      <-> Exists (fun t => stop_at_loop_test t = true) ticks)
  /\ ((cid, t) ∈ seen_samples
        (snd (collect_loop address (mkTick false p :: ticks) st)))
  /\ ((cid, t) ∉ queued_keys
        (snd (collect_loop address (mkTick false p :: ticks) st)))
  /\ (forall st' cts' svc' img',
        (cid, t) ∈ seen_samples st' ->
        sample_body cts' cid svc' img' st' s = (st', Ok tt))
  /\ ((cid, t) ∈ seen_samples
        (collect_many address later (mark_seen (cid, t) stb)))
  /\ ((cid, t) ∉ queued_keys
        (collect_many address later (mark_seen (cid, t) stb))).
Proof.
  intros st Hstop Hbase Hget Hbefore Hfields Hpre Hts Htr Ht Hk Hb.
  assert (Honce : collect_once address p st
                  = (mark_seen (cid, t) stb, Raise e)).
  { unfold collect_once. rewrite Hstop, Hbase, Hget.
    rewrite (for_each_st_app _ _ _ _ _ Hbefore).
    cbn [for_each_st]. unfold container_body at 1. rewrite Hfields.
    rewrite (for_each_st_app _ _ _ _ _ Hpre).
    cbn [for_each_st].
    now rewrite (sample_body_fails _ _ _ _ _ _ ts t e). }
  assert (Hsound : queue_sound stb).
  { apply (extends_queue_sound st); [| apply reachable_sound].
    apply (extends_trans _ sta).
    - pose proof (for_each_st_extends (container_body (utcnow p)) before st
                    (container_body_extends (utcnow p))) as X.
      now rewrite Hbefore in X.
    - pose proof (for_each_st_extends
                    (sample_body (utcnow p) cid svc img) pre sta
                    (sample_body_extends (utcnow p) cid svc img)) as X.
      now rewrite Hpre in X. }
  assert (Hin : (cid, t) ∈ seen_samples (mark_seen (cid, t) stb))
    by (simpl; set_solver).
  assert (Hout : (cid, t) ∉ queued_keys (mark_seen (cid, t) stb)).
  { intros H. apply Hk. now apply Hsound. }
  assert (Hloop : snd (collect_loop address (mkTick false p :: ticks) st)
                  = snd (collect_loop address ticks
                           (mark_seen (cid, t) stb))
                  /\ fst (collect_loop address (mkTick false p :: ticks) st)
                     = fst (collect_loop address ticks
                              (mark_seen (cid, t) stb))).
  { cbn [collect_loop stop_at_loop_test tick_poll]. now rewrite Honce. }
  destruct Hloop as [Hsnd Hfst].
  destruct (collect_loop_shape address ticks (mark_seen (cid, t) stb))
    as [Hstatus Hext].
  destruct (seen_unqueued_stays _ _ _ Hext Hin Hout) as [L1 L2].
  destruct (seen_unqueued_stays _ _ _
              (collect_many_extends address later (mark_seen (cid, t) stb))
              Hin Hout) as [M1 M2].
  split; [exact Honce |]. split; [reflexivity |]. split; [exact Hout |].
  split; [now rewrite Hfst |].
  split; [now rewrite Hsnd |]. split; [now rewrite Hsnd |].
  split; [intros; now apply (sample_body_seen _ _ _ _ _ _ ts t) |].
  split; assumption.
Qed.

Lemma seen_mark_survives_failure_witness :
  @collect_once ascii_builtins "localhost" (late_failure_poll 1704067205)
                new_collector
  = (mark_seen ("c2", 1704067200) after_c2_first, Raise ValueError)
  /\ ("c2", 1704067200) ∈ seen_samples
       (snd (@collect_loop ascii_builtins "localhost"
               [mkTick false (late_failure_poll 1704067205);
                mkTick false (late_failure_poll 1704067215);
                mkTick true (late_failure_poll 1704067225)]
               new_collector))
  /\ ("c2", 1704067200) ∉ queued_keys
       (snd (@collect_loop ascii_builtins "localhost"
               [mkTick false (late_failure_poll 1704067205);
                mkTick false (late_failure_poll 1704067215);
                mkTick true (late_failure_poll 1704067225)]
               new_collector)).
Proof.
  assert (Hk : ("c2", 1704067200) ∉ seen_samples after_c2_first).
  { apply (bool_decide_unpack _). vm_compute. exact I. }
  destruct (seen_mark_survives_failure ascii_builtins
              "localhost" "http://localhost:8080" [] []
              [mkTick false (late_failure_poll 1704067215);
               mkTick true (late_failure_poll 1704067225)]
              (late_failure_poll 1704067205) "c2"
              (entry_with [sample_at_1; bad_memory_sample])
              (JStr "web") (JStr "") bad_memory_sample
              (JStr "2024-01-01T00:00:00Z")
              [sample_at_1] []
              [("c1", entry_with [sample_at_0])]
              [("c3", entry_with [sample_at_0])]
              after_c1 after_c2_first 1704067200 ValueError
              eq_refl eq_refl eq_refl eq_refl eq_refl eq_refl eq_refl
              eq_refl eq_refl Hk eq_refl)
    as (H1 & _ & _ & _ & H5 & H6 & _).
  split; [exact H1 |]. split; [exact H5 | exact H6].
Defined.

(** C10.  The key holds the timestamp rounded to whole seconds.  When the
    only container of a snapshot reports two samples with different
    timestamps that both parse to the second [t], the key [(cid, t)] not
    being seen yet and the line of the first being built, then the poll
    puts the line of the first sample and nothing else, and raises
    nothing: the second sample leaves no line.  It is passed over again in
    every later state, since the key stays seen over any further polls. *)
Theorem same_second_samples_collapse (rt : Builtins) (address base : string)
    (later : list poll) (p : poll) (st : collector)
    (cid : string) (entry svc img s1 s2 ts1 ts2 : json) (t : Z)
    (line : Row) :
  stop_is_set p = false ->
  get_cadvisor_base_url address = Ok base ->
  http_get p (base +:+ "/api/v1.3/docker/") = Ok (JDict [(cid, entry)]) ->
  container_fields entry = Ok (svc, img, [s1; s2]) ->
  py_get s1 "timestamp" JNull = Ok ts1 ->
  py_get s2 "timestamp" JNull = Ok ts2 ->
  ts1 <> ts2 ->
  truthy ts1 = true ->
  isoparse_timestamp ts1 = Some t ->
  isoparse_timestamp ts2 = Some t ->
  (cid, t) ∉ seen_samples st ->
  build_line (utcnow p) t svc img s1 = Ok line ->
  let st1 := {| seen_samples := {[(cid, t)]} ∪ seen_samples st;
                write_queue := write_queue st ++ [((cid, t), line)] |} in
  collect_once address p st = (st1, Ok tt)
  /\ (forall st' cts' svc' img',
        (cid, t) ∈ seen_samples st' ->
        sample_body cts' cid svc' img' st' s2 = (st', Ok tt))
  /\ (cid, t) ∈ seen_samples (collect_many address later st1).
Proof.
  intros Hstop Hbase Hget Hfields Hts1 Hts2 Hne Htr Ht1 Ht2 Hk Hb st1.
  assert (Hin : (cid, t) ∈ seen_samples st1) by (simpl; set_solver).
  repeat split.
  - unfold collect_once. rewrite Hstop, Hbase, Hget. simpl.
    rewrite Hfields. simpl.
    rewrite (sample_body_puts _ _ _ _ _ _ ts1 t line) by assumption.
    fold st1. now rewrite (sample_body_seen _ _ _ _ _ _ ts2 t).
  - intros. now apply (sample_body_seen _ _ _ _ _ _ ts2 t).
  - destruct (collect_many_extends address later st1) as [S _].
    exact (S _ Hin).
Qed.

Lemma same_second_samples_collapse_witness :
  @collect_once ascii_builtins "localhost" (same_second_poll 1704067205)
                new_collector
  = ({| seen_samples := {[("c1", 1704067200)]} ∪ ∅;
        write_queue := [(("c1", 1704067200), early_line)] |}, Ok tt).
Proof.
  assert (Hk : ("c1", 1704067200) ∉ seen_samples new_collector)
    by (simpl; set_solver).
  assert (Hne : JStr "2024-01-01T00:00:00.100Z"
                <> JStr "2024-01-01T00:00:00.400Z") by discriminate.
  destruct (same_second_samples_collapse ascii_builtins
              "localhost" "http://localhost:8080" []
              (same_second_poll 1704067205) new_collector
              "c1" same_second_entry (JStr "web") (JStr "")
              early_sample late_sample
              (JStr "2024-01-01T00:00:00.100Z")
              (JStr "2024-01-01T00:00:00.400Z") 1704067200 early_line
              eq_refl eq_refl eq_refl eq_refl eq_refl eq_refl Hne
              eq_refl eq_refl eq_refl Hk eq_refl)
    as (H & _ & _).
  exact H.
Defined.

(* --------------------------------------------------------------------- *)
(** ** An empty address *)
(* --------------------------------------------------------------------- *)

Lemma collect_once_empty_address (rt : Builtins) (p : poll) (st : collector) :
  stop_is_set p = false ->
  collect_once "" p st = (st, Raise ValueError).
Proof. intros H. unfold collect_once. now rewrite H. Qed.

(** C4 (as amended).  An empty address makes [get_cadvisor_base_url] raise
    [ValueError]; the address is looked at nowhere but inside
    [collect_once], so each turn of [collect_loop] raises that error, which
    the loop discards: as long as the stop flag is not set the loop keeps
    turning, the instance is left as it was and nothing is queued.  An
    address of blanks only is not even rejected. *)
Theorem empty_address_fails_every_tick (rt : Builtins) (ticks : list tick)
    (st : collector) :
  Forall (fun t => stop_at_loop_test t = false
                   /\ stop_is_set (tick_poll t) = false) ticks ->
  get_cadvisor_base_url "" = Raise ValueError
  /\ Forall (fun t => collect_once "" (tick_poll t) st
                      = (st, Raise ValueError)) ticks
  /\ collect_loop "" ticks st = (Looping, st)
  /\ get_cadvisor_base_url " " = Ok "http://:8080".
Proof.
  intros H. split; [reflexivity |]. split; [| split; [| reflexivity]].
  - eapply Forall_impl; [exact H |]. intros t [_ Ht].
    now apply collect_once_empty_address.
  - induction H as [|t ticks [H1 H2] _ IH]; [reflexivity |].
    simpl. rewrite H1, collect_once_empty_address by assumption. exact IH.
Qed.

Lemma empty_address_fails_every_tick_witness :
  @collect_loop ascii_builtins ""
     [mkTick false failing_poll; mkTick false failing_poll] new_collector
  = (Looping, new_collector).
Proof.
  assert (H : Forall (fun t => stop_at_loop_test t = false
                               /\ stop_is_set (tick_poll t) = false)
                     [mkTick false failing_poll; mkTick false failing_poll])
    by (repeat constructor).
  destruct (empty_address_fails_every_tick ascii_builtins _ new_collector H)
    as (_ & _ & H3 & _).
  exact H3.
Defined.

(** C4, the claim as stated, fails: with the empty address the loop has
    not exited after three turns, each of which raised [ValueError]. *)
Lemma empty_address_keeps_polling :
  @collect_once ascii_builtins "" (one_sample_poll 1704067205) new_collector
  = (new_collector, Raise ValueError)
  /\ @collect_loop ascii_builtins ""
       [mkTick false (one_sample_poll 1704067205);
        mkTick false (one_sample_poll 1704067215);
        mkTick false (one_sample_poll 1704067225)] new_collector
     = (Looping, new_collector).
Proof. split; reflexivity. Qed.

(* --------------------------------------------------------------------- *)
(** ** The writer and the shutdown *)
(* --------------------------------------------------------------------- *)

#[local] Arguments csv_header : simpl never.

Lemma concat_rows_snoc (q : list string) (r : string) :
  concat_rows (q ++ [r]) = concat_rows q +:+ r.
Proof.
  induction q as [|x q IH]; simpl.
  - apply append_empty_r.
  - now rewrite IH, append_assoc.
Qed.

Lemma shutdown_inv_start (rows : list string) (previous : option string) :
  shutdown_inv rows (start rows previous).
Proof.
  unfold shutdown_inv, start. simpl. repeat split.
  exists []. simpl. repeat split. lia.
Qed.

(** Closing the first part of the invariant with [done] as the rows put
    and [content] as what the file holds. *)
Ltac put_so_far done :=
  exists done; simpl; split; [assumption || idtac | split; [simpl; lia |]].

Ltac file_holds content :=
  exists content; split; [reflexivity | simpl].

Lemma shutdown_inv_writer (rows : list string) (s : sys) :
  shutdown_inv rows s -> shutdown_inv rows (container_queue_writer s).
Proof.
  destruct s as [stop q f w c pending].
  intros ((done & Hrows & Hlen & Hfile) & Hc & Hw). simpl in *.
  unfold container_queue_writer; simpl.
  destruct w; simpl in *.
  - (* W_open *)
    split; [| split; [exact Hc | exact I]].
    put_so_far done. file_holds csv_header. now rewrite Hfile.
  - (* W_while *)
    split; [| split; [exact Hc |]].
    + put_so_far done. destruct stop; exact Hfile.
    + destruct stop; [reflexivity | exact I].
  - (* W_get *)
    destruct Hfile as (content & -> & Hfile).
    destruct q as [|item q]; simpl in *;
      (split; [| split; [exact Hc | exact I]]).
    + put_so_far done. file_holds content. exact Hfile.
    + put_so_far done. file_holds (content +:+ item).
      now rewrite append_assoc.
  - (* W_drain *)
    destruct Hfile as (content & -> & Hfile).
    destruct q as [|item q]; simpl in *.
    + split; [| split; [exact Hc | now split]].
      put_so_far done. file_holds content. exact Hfile.
    + split; [| split; [exact Hc | exact Hw]].
      put_so_far done. file_holds (content +:+ item).
      now rewrite append_assoc.
  - (* W_exit *)
    split; [| split; [exact Hc | exact Hw]].
    put_so_far done. exact Hfile.
Qed.

Lemma shutdown_inv_caller (rows : list string) (s : sys) :
  shutdown_inv rows s -> shutdown_inv rows (caller s).
Proof.
  destruct s as [stop q f w c pending].
  intros ((done & Hrows & Hlen & Hfile) & Hc & Hw). simpl in *.
  unfold caller; simpl.
  destruct c; simpl in *.
  - (* C_put *)
    subst stop. destruct pending as [|row rest]; simpl in *.
    + (* no row left: set the flag *)
      split; [| split; [now split |]].
      * put_so_far done. exact Hfile.
      * destruct w; try exact I; try discriminate.
        destruct Hw; discriminate.
    + (* put the next row *)
      split; [| split; [reflexivity |]].
      * exists (done ++ [row]). simpl. rewrite <- app_assoc. simpl.
        rewrite !length_app. simpl.
        split; [assumption |]. split; [lia |].
        rewrite !concat_rows_snoc.
        destruct w; try (now rewrite Hfile);
          destruct Hfile as (content & -> & Hfile);
          file_holds content; now rewrite <- !append_assoc, Hfile.
      * destruct w; try exact I; try discriminate.
        destruct Hw; discriminate.
  - (* C_unblock: put the empty string *)
    destruct Hc as [-> ->].
    split; [| split; [now split |]].
    + exists done. simpl. split; [assumption |].
      rewrite length_app. simpl. split; [lia |].
      rewrite concat_rows_snoc, append_empty_r. exact Hfile.
    + destruct w; try exact I; [reflexivity |].
      destruct Hw as [_ Hq]. split; [reflexivity |]. simpl.
      now rewrite concat_rows_snoc, append_empty_r.
  - (* C_join *)
    split; [| split; [exact Hc | exact Hw]].
    put_so_far done. exact Hfile.
Qed.

Lemma shutdown_inv_run (rows : list string) (schedule : list thread)
    (s : sys) :
  shutdown_inv rows s -> shutdown_inv rows (run schedule s).
Proof.
  revert s. induction schedule as [|t schedule IH]; intros s H; [exact H |].
  simpl. apply IH. destruct t; simpl.
  - now apply shutdown_inv_writer.
  - now apply shutdown_inv_caller.
Qed.

(** When [join] has returned the file holds the header and the rows. *)
Lemma joined_file (rows : list string) (s : sys) :
  shutdown_inv rows s -> joined s = true ->
  sys_file s = Some (csv_header +:+ concat_rows rows).
Proof.
  destruct s as [stop q f w c pending].
  intros ((done & Hrows & _ & Hfile) & Hc & Hw) Hj. simpl in *.
  destruct w; try discriminate. destruct c; try discriminate.
  destruct Hc as [_ ->]. rewrite app_nil_r in Hrows. subst done.
  destruct Hw as [_ Hq]. destruct Hfile as (content & -> & Hfile).
  rewrite Hq, append_empty_r in Hfile. now subst.
Qed.

Lemma run_app (l1 l2 : list thread) (s : sys) :
  run (l1 ++ l2) s = run l2 (run l1 s).
Proof. revert s. induction l1 as [|t l1 IH]; intros s; simpl; auto. Qed.

Lemma caller_moves_step (s : sys) :
  caller_moves (caller s) = pred (caller_moves s).
Proof.
  destruct s as [stop q f w c pending]. unfold caller, caller_moves. simpl.
  destruct c; simpl; [| reflexivity | reflexivity].
  destruct pending; simpl; lia.
Qed.

Lemma caller_finishes (n : nat) (s : sys) :
  (caller_moves s <= n)%nat ->
  sys_caller (run (repeat Caller n) s) = C_join.
Proof.
  revert s. induction n as [|n IH]; intros s H; simpl.
  - unfold caller_moves in H. destruct (sys_caller s); [lia | lia | reflexivity].
  - apply IH. rewrite caller_moves_step. lia.
Qed.

Lemma writer_keeps_caller (s : sys) :
  sys_caller (container_queue_writer s) = sys_caller s
  /\ sys_stop (container_queue_writer s) = sys_stop s.
Proof.
  destruct s as [stop q f w c pending]. unfold container_queue_writer. simpl.
  destruct w; simpl; try (destruct q; simpl); auto.
Qed.

Lemma writer_moves_step (s : sys) :
  sys_stop s = true ->
  (writer_moves (container_queue_writer s) <= pred (writer_moves s))%nat.
Proof.
  destruct s as [stop q f w c pending].
  unfold container_queue_writer, writer_moves. simpl. intros ->.
  destruct w; simpl; try (destruct q; simpl); lia.
Qed.

Lemma writer_finishes (n : nat) (s : sys) :
  sys_stop s = true ->
  (writer_moves s <= n)%nat ->
  sys_writer (run (repeat Writer n) s) = W_exit
  /\ sys_caller (run (repeat Writer n) s) = sys_caller s.
Proof.
  revert s. induction n as [|n IH]; intros s Hstop H; simpl.
  - split; [| reflexivity]. unfold writer_moves in H.
    destruct (sys_writer s); simpl in H; solve [lia | reflexivity].
  - destruct (writer_keeps_caller s) as [Hc Hs].
    pose proof (writer_moves_step s Hstop) as Hm.
    destruct (IH (container_queue_writer s)) as [H1 H2];
      [congruence | lia |].
    split; [exact H1 | congruence].
Qed.

(** From any state of a run, letting the caller finish [stop] and then the
    writer move makes [join] return. *)
Lemma join_returns (rows : list string) (s : sys) :
  shutdown_inv rows s ->
  joined (run (repeat Caller (length rows + 2)
               ++ repeat Writer (length rows + 5)) s) = true.
Proof.
  intros Hinv. rewrite run_app.
  set (s1 := run (repeat Caller (length rows + 2)) s).
  assert (Hc1 : sys_caller s1 = C_join).
  { apply caller_finishes.
    destruct Hinv as ((done & -> & _) & _). unfold caller_moves.
    rewrite length_app. destruct (sys_caller s); lia. }
  assert (Hinv1 : shutdown_inv rows s1) by now apply shutdown_inv_run.
  destruct Hinv1 as ((done & Hrows & Hlen & _) & Hcal & _).
  rewrite Hc1 in Hcal, Hlen. destruct Hcal as [Hstop Hpend].
  rewrite Hpend, app_nil_r in Hrows. subst done.
  destruct (writer_finishes (length rows + 5) s1 Hstop) as [Hw Hc].
  { unfold writer_moves. destruct (sys_writer s1); lia. }
  unfold joined. now rewrite Hw, Hc, Hc1.
Qed.

(** C1.  The rows are put, then [stop] is called, then [join], while the
    writer thread runs; the two threads interleave in any order.  Whenever
    [join] has returned, the file holds the header followed by the rows
    put, each once and in order, whatever it held before and however many
    rows there are.  And [join] does return: from any state of the run,
    once the caller has finished [stop], a bounded number of writer moves
    ends the writer. *)
Theorem drain_on_shutdown (rows : list string) (previous : option string)
    (schedule : list thread) :
  let s := run schedule (start rows previous) in
  (joined s = true -> sys_file s = Some (csv_header +:+ concat_rows rows))
  /\ joined (run (repeat Caller (length rows + 2)
                  ++ repeat Writer (length rows + 5)) s) = true
  /\ sys_file (run (repeat Caller (length rows + 2)
                    ++ repeat Writer (length rows + 5)) s)
     = Some (csv_header +:+ concat_rows rows).
Proof.
  intros s.
  assert (Hinv : shutdown_inv rows s)
    by (apply shutdown_inv_run, shutdown_inv_start).
  split; [now apply joined_file |].
  split; [now apply join_returns |].
  apply joined_file; [now apply shutdown_inv_run | now apply join_returns].
Qed.

Lemma drain_on_shutdown_witness :
  joined (run drain_schedule (start two_rows (Some "stale"))) = true
  /\ sys_file (run drain_schedule (start two_rows (Some "stale")))
     = Some (csv_header +:+ concat_rows two_rows).
Proof.
  assert (Hj : joined (run drain_schedule (start two_rows (Some "stale")))
               = true) by (vm_compute; reflexivity).
  split; [exact Hj |].
  destruct (drain_on_shutdown two_rows (Some "stale") drain_schedule)
    as [H _].
  exact (H Hj).
Defined.

(* ===================================================================== *)
(** * Further properties of the code *)
(* ===================================================================== *)

(* --------------------------------------------------------------------- *)
(** ** The service name and the base URL *)
(* --------------------------------------------------------------------- *)

Lemma last_segment_cons (c : ascii) (s : string) :
  last_segment (String c s)
  = if contains "/" (String c s)
    then (if contains "/" s then last_segment s else s)
    else String c s.
Proof. reflexivity. Qed.

(** The shape of [name.split("/")[-1]]. *)
Lemma last_segment_shape (s : string) :
  contains "/" (last_segment s) = false
  /\ ((contains "/" s = false /\ last_segment s = s)
      \/ (contains "/" s = true
          /\ exists pre, s = pre +:+ "/" +:+ last_segment s)).
Proof.
  induction s as [|c s [IH1 IH2]]; [split; [reflexivity | now left] |].
  rewrite last_segment_cons.
  destruct (contains "/" (String c s)) eqn:Hcs.
  - destruct (contains "/" s) eqn:Hs.
    + split; [exact IH1 |]. right. split; [reflexivity |].
      destruct IH2 as [[H _] | [_ [pre Hpre]]]; [discriminate |].
      exists (String c pre). simpl. f_equal. exact Hpre.
    + split; [exact Hs |]. right. split; [reflexivity |].
      exists EmptyString.
      change (contains "/" (String c s))
        with (Ascii.eqb "/" c || contains "/" s) in Hcs.
      rewrite Hs, orb_false_r in Hcs.
      apply Ascii.eqb_eq in Hcs. now subst c.
  - split; [exact Hcs | now left].
Qed.

(** X1.  [name.split("/")[-1]] holds no slash; a name without a slash is
    its own last segment, and any other name is some text, a slash, and
    its last segment. *)
Theorem last_segment_spec (s : string) :
  contains "/" (last_segment s) = false
  /\ ((contains "/" s = false /\ last_segment s = s)
      \/ (contains "/" s = true
          /\ exists pre, s = pre +:+ "/" +:+ last_segment s)).
Proof. exact (last_segment_shape s). Qed.

Lemma startswith_app (p t : string) : startswith p (p +:+ t) = true.
Proof.
  induction p as [|c p IH]; simpl; [reflexivity |].
  now rewrite Ascii.eqb_refl.
Qed.

(** X2.  The scheme of an address is kept: when the stripped address
    starts with [http://] or with [https://], the base URL starts with that
    same scheme (an https address is not turned into an http one, and no
    second scheme is put in front). *)
Theorem scheme_is_kept (a r sch : string) :
  is_scheme sch ->
  startswith sch (strip a) = true ->
  get_cadvisor_base_url a = Ok r ->
  startswith sch r = true.
Proof.
  intros Hsch Hpre. unfold get_cadvisor_base_url.
  destruct (String.eqb a ""); [discriminate |].
  apply startswith_split in Hpre as [t Ht]. rewrite Ht.
  rewrite has_scheme_app, split_dslash_scheme by assumption.
  destruct (contains ":" t) eqn:Hc; simpl; intros [= <-].
  - rewrite rstrip_slash_scheme by assumption. apply startswith_app.
  - rewrite append_assoc, rstrip_slash_scheme.
    + apply startswith_app.
    + rewrite contains_app. apply orb_true_r.
Qed.

Lemma scheme_is_kept_witness :
  startswith "https://" "https://cadvisor.example:8443" = true.
Proof.
  apply (scheme_is_kept "  https://cadvisor.example:8443/ "
           "https://cadvisor.example:8443" "https://");
    [now right | reflexivity | reflexivity].
Defined.

(** Going through a chain of binds that ended in [Ok]. *)
Ltac bind_inv H :=
  repeat match type of H with
         | context [mbind _ ?r] =>
             let E := fresh "E" in
             destruct r eqn:E; simpl in H; try discriminate H
         end.

(** X3.  The service name of a container entry: with a non-empty list of
    aliases it is the first alias and the name is not looked at, so that
    the fields are read whatever the name is; with no aliases (missing,
    null or empty) and a name that is a string, [""] when missing, it is
    the last segment of the name; with no aliases and a name that is not a
    string the entry raises. *)
Theorem service_name_of_entry (d : list (string * json)) :
  (forall x l,
     lookup_or_null "aliases" d = JList (x :: l) ->
     container_fields (JDict d)
     = (image_name ←
          py_get (match assoc "spec" d with Some v => v | None => JDict [] end)
                 "image" (JStr "");
        stats ←
          py_iter (match assoc "stats" d with
                   | Some v => v
                   | None => JList []
                   end);
        Ok (x, image_name, stats)))
  /\ (forall name,
        truthy (lookup_or_null "aliases" d) = false ->
        match assoc "name" d with Some v => v | None => JStr "" end
        = JStr name ->
        container_fields (JDict d)
        = (image_name ←
             py_get (match assoc "spec" d with
                     | Some v => v
                     | None => JDict []
                     end) "image" (JStr "");
           stats ←
             py_iter (match assoc "stats" d with
                      | Some v => v
                      | None => JList []
                      end);
           Ok (JStr (last_segment name), image_name, stats)))
  /\ (truthy (lookup_or_null "aliases" d) = false ->
      (forall name,
         match assoc "name" d with Some v => v | None => JStr "" end
         <> JStr name) ->
      container_fields (JDict d) = Raise AttributeError).
Proof.
  unfold container_fields. simpl. fold (lookup_or_null "aliases" d).
  split; [| split].
  - intros x l Ha. rewrite Ha. reflexivity.
  - intros name Ha Hn. unfold py_or. rewrite Ha. simpl. rewrite Hn.
    reflexivity.
  - intros Ha Hn. unfold py_or. rewrite Ha. simpl.
    destruct (match assoc "name" d with Some v => v | None => JStr "" end)
      as [| | | |name| |]; try reflexivity.
    now destruct (Hn name).
Qed.

Lemma service_name_of_entry_witness :
  container_fields aliased_entry_odd_name
  = Ok (JStr "web", JStr "", [sample_at_0]).
Proof.
  destruct (service_name_of_entry
              [("aliases", JList [JStr "web"; JStr "web-1"]);
               ("name", JInt 5);
               ("stats", JList [sample_at_0])]) as [H _].
  apply (H (JStr "web") [JStr "web-1"]). reflexivity.
Defined.

(* --------------------------------------------------------------------- *)
(** ** The extractor and the line of a sample *)
(* --------------------------------------------------------------------- *)

Section LineOfSample.
Context {rt : Builtins}.

Lemma totals_add_zero (t : totals) : totals_add t (0, 0, 0, 0) = t.
Proof.
  destruct t as [[[a b] c] e]. unfold totals_add.
  now rewrite !Z.add_0_r.
Qed.

Lemma totals_add_assoc (x y z : totals) :
  totals_add (totals_add x y) z = totals_add x (totals_add y z).
Proof.
  destruct x as [[[a b] c] e], y as [[[a1 b1] c1] e1],
    z as [[[a2 b2] c2] e2].
  unfold totals_add. now rewrite !Z.add_assoc.
Qed.

(** The [try] block adds to the running totals what it would add to
    zero. *)
Lemma add_counters_shift (tot : totals) (r w rb wb : json) :
  add_counters tot r w rb wb
  = totals_add tot (add_counters (0, 0, 0, 0) r w rb wb).
Proof.
  destruct tot as [[[a b] c] e]. unfold add_counters, totals_add.
  destruct (py_int (py_or r (JInt 0))) as [nr |];
    [| now rewrite !Z.add_0_r].
  destruct (py_int (py_or w (JInt 0))) as [nw |];
    [| now rewrite !Z.add_0_r].
  destruct (py_int (py_or rb (JInt 0))) as [nrb |];
    [| now rewrite !Z.add_0_r].
  destruct (py_int (py_or wb (JInt 0))) as [nwb |];
    now rewrite ?Z.add_0_r.
Qed.

Lemma fs_entry_body_shift (tot : totals) (v : json) :
  fs_entry_body tot v
  = (t ← fs_entry_body (0, 0, 0, 0) v; Ok (totals_add tot t)).
Proof.
  destruct (is_dict v) eqn:E.
  - destruct v; try discriminate E. rewrite !fs_entry_body_dict. simpl.
    now rewrite add_counters_shift.
  - now rewrite !fs_entry_body_not_dict.
Qed.

Lemma for_each_shift (l : list json) (tot : totals) :
  for_each fs_entry_body l tot
  = (t ← for_each fs_entry_body l (0, 0, 0, 0); Ok (totals_add tot t)).
Proof.
  revert tot. induction l as [|v l IH]; intros tot; simpl.
  - now rewrite totals_add_zero.
  - rewrite (fs_entry_body_shift tot v).
    destruct (fs_entry_body (0, 0, 0, 0) v) as [t0 | e]; simpl;
      [| reflexivity].
    rewrite (IH (totals_add tot t0)), (IH t0).
    destruct (for_each fs_entry_body l (0, 0, 0, 0)) as [u | e]; simpl;
      [| reflexivity].
    now rewrite totals_add_assoc.
Qed.

Lemma for_each_app (l1 l2 : list json) (tot : totals) :
  for_each fs_entry_body (l1 ++ l2) tot
  = (t ← for_each fs_entry_body l1 tot; for_each fs_entry_body l2 t).
Proof.
  revert tot. induction l1 as [|v l1 IH]; intros tot; simpl;
    [reflexivity |].
  destruct (fs_entry_body tot v); simpl; [apply IH | reflexivity].
Qed.

End LineOfSample.

(** X4.  The totals are additive over the device entries, whatever the
    entries hold: the totals of a filesystem list [l1 ++ l2] are the
    totals of [l1] plus the totals of [l2], and the list as a whole raises
    exactly when one of the two parts does, the first part coming
    first. *)
Theorem extractor_additive (rt : Builtins) (d d1 d2 : list (string * json))
    (l1 l2 : list json) :
  filesystem_list_of d = JList (l1 ++ l2) ->
  filesystem_list_of d1 = JList l1 ->
  filesystem_list_of d2 = JList l2 ->
  extract_filesystem_counters (JDict d)
  = (t1 ← extract_filesystem_counters (JDict d1);
     t2 ← extract_filesystem_counters (JDict d2);
     Ok (totals_add t1 t2)).
Proof.
  intros H H1 H2. rewrite !extract_on_dict, H, H1, H2. simpl.
  rewrite for_each_app.
  destruct (for_each fs_entry_body l1 (0, 0, 0, 0)) as [t1 | e]; simpl;
    [| reflexivity].
  apply for_each_shift.
Qed.

Lemma extractor_additive_witness :
  @extract_filesystem_counters ascii_builtins
     (JDict [("filesystem",
              JList [JDict [("reads", JInt 3); ("writes", JStr "abc")];
                     JDict [("reads", JInt 2); ("writeBytes", JInt 50)]])])
  = Ok (5, 0, 0, 50).
Proof.
  rewrite (extractor_additive ascii_builtins _
             [("filesystem",
               JList [JDict [("reads", JInt 3); ("writes", JStr "abc")]])]
             [("fs",
               JList [JDict [("reads", JInt 2); ("writeBytes", JInt 50)]])]
             [JDict [("reads", JInt 3); ("writes", JStr "abc")]]
             [JDict [("reads", JInt 2); ("writeBytes", JInt 50)]]);
    reflexivity.
Defined.

(** Going through the binds of [build_line], the tuple of totals
    included. *)
Ltac line_inv H :=
  repeat first
    [ match type of H with
      | context [let '(_, _) := ?t in _] =>
          is_var t; destruct t as [[[? ?] ?] ?]; simpl in H
      end
    | match type of H with
      | context [mbind _ ?r] =>
          let E := fresh "E" in
          destruct r eqn:E; simpl in H; try discriminate H
      end ].

(** X5.  A sample that is a dict without [cpu], [memory], [filesystem],
    [fs] and [network] gives the line with every metric at zero, whatever
    else it holds. *)
Theorem missing_metrics_are_zero (rt : Builtins) (cts t : Z)
    (svc img : json) (d : list (string * json)) :
  assoc "cpu" d = None ->
  assoc "memory" d = None ->
  assoc "filesystem" d = None ->
  assoc "fs" d = None ->
  assoc "network" d = None ->
  build_line cts t svc img (JDict d)
  = Ok (mkRow cts t svc img (FFin 0 1) 0 0 0 0 0 0 0 0 0 0).
Proof.
  intros Hc Hm Hf Hfs Hn. unfold build_line.
  rewrite extract_on_dict. unfold filesystem_list_of, lookup_or_null.
  simpl. rewrite Hc, Hm, Hf, Hfs, Hn. reflexivity.
Qed.

Lemma missing_metrics_are_zero_witness :
  @build_line ascii_builtins 1704067205 1704067200 (JStr "db") (JStr "")
     (JDict [("timestamp", JStr "2024-01-01T00:00:00Z");
             ("diskio", JDict [])])
  = Ok (mkRow 1704067205 1704067200 (JStr "db") (JStr "") (FFin 0 1)
              0 0 0 0 0 0 0 0 0 0).
Proof.
  apply (missing_metrics_are_zero ascii_builtins); reflexivity.
Defined.

(** A line that is built carries the collection time, the sample time,
    the service name and the image name it was given. *)
Lemma build_line_metadata (rt : Builtins) (cts t : Z)
    (svc img s : json) (line : Row) :
  build_line cts t svc img s = Ok line ->
  row_collected line = cts /\ row_timestamp line = t
  /\ row_service line = svc /\ row_image line = img.
Proof.
  unfold build_line. intros H. line_inv H.
  injection H as <-. repeat split.
Qed.

(** X6.  A [network] field that is missing or falsy (null, an empty
    object, 0, [""]) is taken for an empty object: the line is built, or
    fails to be built, exactly as with [network] set to [{}]; in a line
    that is built the four network counters are zero; and with no [cpu],
    [memory], [filesystem] and [fs] the line is built, all zero.  A
    [memory] field that is present and not an object, null included, makes
    the construction of the line raise. *)
Theorem null_network_tolerated_null_memory_not (rt : Builtins) (cts t : Z)
    (svc img : json) (d : list (string * json)) :
  (truthy (match assoc "network" d with
           | Some v => v
           | None => JDict []
           end) = false ->
   build_line cts t svc img (JDict d)
   = build_line cts t svc img (JDict (("network", JDict []) :: d))
   /\ (forall line,
         build_line cts t svc img (JDict d) = Ok line ->
         row_rx_bytes line = 0 /\ row_tx_bytes line = 0
         /\ row_rx_packets line = 0 /\ row_tx_packets line = 0)
   /\ (assoc "cpu" d = None -> assoc "memory" d = None ->
       assoc "filesystem" d = None -> assoc "fs" d = None ->
       build_line cts t svc img (JDict d)
       = Ok (mkRow cts t svc img (FFin 0 1) 0 0 0 0 0 0 0 0 0 0)))
  /\ (forall v,
        assoc "memory" d = Some v -> is_dict v = false ->
        is_ok (build_line cts t svc img (JDict d)) = false).
Proof.
  split.
  - intros Hn. split; [| split].
    + unfold build_line. rewrite !extract_on_dict.
      unfold filesystem_list_of, lookup_or_null. simpl.
      unfold py_or. rewrite Hn. reflexivity.
    + intros line. unfold build_line. simpl. unfold py_or. rewrite Hn.
      simpl. intros H. line_inv H. injection H as <-. repeat split.
    + intros Hc Hm Hf Hfs. unfold build_line.
      rewrite extract_on_dict. unfold filesystem_list_of, lookup_or_null.
      simpl. rewrite Hc, Hm, Hf, Hfs. simpl.
      unfold py_or. rewrite Hn. reflexivity.
  - intros v Hm Hv.
    destruct (build_line cts t svc img (JDict d)) as [line |] eqn:H;
      [exfalso | reflexivity].
    unfold build_line in H. simpl in H. rewrite Hm in H.
    destruct v; try discriminate Hv; simpl in H; line_inv H.
Qed.

Lemma null_network_tolerated_null_memory_not_witness :
  @build_line ascii_builtins 5 1 (JStr "web") (JStr "")
     (JDict [("timestamp", JStr "1970-01-01T00:00:01Z");
             ("network", JInt 0)])
  = Ok (mkRow 5 1 (JStr "web") (JStr "") (FFin 0 1) 0 0 0 0 0 0 0 0 0 0)
  /\ is_ok (@build_line ascii_builtins 5 1 (JStr "web") (JStr "")
              (JDict [("memory", JNull)])) = false.
Proof.
  split.
  - destruct (null_network_tolerated_null_memory_not ascii_builtins
                5 1 (JStr "web") (JStr "")
                [("timestamp", JStr "1970-01-01T00:00:01Z");
                 ("network", JInt 0)]) as [H _].
    destruct (H eq_refl) as (_ & _ & H3). now apply H3.
  - destruct (null_network_tolerated_null_memory_not ascii_builtins
                5 1 (JStr "web") (JStr "") [("memory", JNull)]) as [_ H].
    now apply (H JNull).
Defined.

(* --------------------------------------------------------------------- *)
(** ** Polls and the loop around them *)
(* --------------------------------------------------------------------- *)

Section Polls.
Context {rt : Builtins}.

Lemma sample_body_lines (cts : Z) (cid : string) (svc img : json)
    (st : collector) (s : json) :
  exists new,
    write_queue (fst (sample_body cts cid svc img st s))
    = write_queue st ++ new
    /\ Forall (line_ok cts) new.
Proof.
  destruct (sample_body_cases cts cid svc img st s)
    as [[e ->] | [-> | [(t & e & _ & _ & ->) | (t & line & _ & Hb & ->)]]];
    simpl.
  - exists []. now rewrite app_nil_r.
  - exists []. now rewrite app_nil_r.
  - exists []. now rewrite app_nil_r.
  - exists [((cid, t), line)]. split; [reflexivity |].
    constructor; [| constructor].
    apply build_line_metadata in Hb as (H1 & H2 & _).
    now split.
Qed.

Lemma for_each_st_lines {A : Type} (cts : Z)
    (body : collector -> A -> collector * res unit) (l : list A)
    (st : collector) :
  (forall st x, exists new,
      write_queue (fst (body st x)) = write_queue st ++ new
      /\ Forall (line_ok cts) new) ->
  exists new,
    write_queue (fst (for_each_st body l st)) = write_queue st ++ new
    /\ Forall (line_ok cts) new.
Proof.
  intros Hbody. revert st. induction l as [|x l IH]; intros st; simpl.
  - exists []. now rewrite app_nil_r.
  - destruct (Hbody st x) as (new1 & Q1 & F1).
    destruct (body st x) as [st' [[]|e]]; simpl in *.
    + destruct (IH st') as (new2 & Q2 & F2). exists (new1 ++ new2).
      rewrite Q2, Q1, app_assoc. split; [reflexivity |].
      now apply Forall_app.
    + now exists new1.
Qed.

Lemma collect_once_no_snapshot (address base : string) (p : poll)
    (st : collector) :
  get_cadvisor_base_url address = Ok base ->
  no_snapshot (http_get p (base +:+ "/api/v1.3/docker/")) = true ->
  fst (collect_once address p st) = st.
Proof.
  intros Hb Hn. unfold collect_once. rewrite Hb.
  destruct (stop_is_set p); [reflexivity |].
  destruct (http_get p _) as [[]|]; try reflexivity. discriminate Hn.
Qed.

End Polls.

(** X7.  Every line a poll puts carries the collection time of that poll
    and the timestamp of the key under which it was put; the lines queued
    before the poll are left as they were. *)
Theorem lines_carry_poll_time (rt : Builtins) (address : string) (p : poll)
    (st : collector) :
  exists new,
    write_queue (fst (collect_once address p st)) = write_queue st ++ new
    /\ Forall (line_ok (utcnow p)) new.
Proof.
  assert (Hnil : exists new : list (sample_key * Row),
             write_queue st = write_queue st ++ new
             /\ Forall (line_ok (utcnow p)) new)
    by (exists []; now rewrite app_nil_r).
  unfold collect_once.
  destruct (stop_is_set p); [exact Hnil |].
  destruct (get_cadvisor_base_url address) as [base |]; [| exact Hnil].
  destruct (http_get p _) as [data |]; [| exact Hnil].
  destruct data; try exact Hnil.
  apply for_each_st_lines. intros st' [cid entry]. unfold container_body.
  destruct (container_fields entry) as [[[svc img] stats] |]; simpl.
  - apply for_each_st_lines. intros. apply sample_body_lines.
  - exists []. now rewrite app_nil_r.
Qed.

(** X8.  A turn of the loop in which the endpoint gives no snapshot (the
    request or the decoding raises, or the body is not an object) leaves
    no trace: the loop goes on as if that turn had not been. *)
Theorem failed_polls_leave_no_trace (rt : Builtins) (address base : string)
    (failed ticks : list tick) (st : collector) :
  get_cadvisor_base_url address = Ok base ->
  Forall (fun t => stop_at_loop_test t = false
                   /\ no_snapshot (http_get (tick_poll t)
                                     (base +:+ "/api/v1.3/docker/")) = true)
         failed ->
  collect_loop address (failed ++ ticks) st = collect_loop address ticks st.
Proof.
  intros Hb H. induction H as [|t failed [H1 H2] _ IH]; [reflexivity |].
  simpl. rewrite H1.
  pose proof (collect_once_no_snapshot address base (tick_poll t) st Hb H2)
    as E.
  destruct (collect_once address (tick_poll t) st) as [st' r].
  simpl in E. subst st'. exact IH.
Qed.

Lemma failed_polls_leave_no_trace_witness :
  @collect_loop ascii_builtins "localhost"
     [mkTick false failing_poll; mkTick false failing_poll;
      mkTick false (one_sample_poll 1704067205)] new_collector
  = @collect_loop ascii_builtins "localhost"
      [mkTick false (one_sample_poll 1704067205)] new_collector.
Proof.
  apply (failed_polls_leave_no_trace ascii_builtins "localhost"
           "http://localhost:8080"
           [mkTick false failing_poll; mkTick false failing_poll]
           [mkTick false (one_sample_poll 1704067205)]);
    [reflexivity | repeat constructor].
Defined.

(** X9.  Whatever the endpoint returns and whatever a poll raises, the
    loop ends only by the stop flag: it has exited after the given turns
    exactly when one of the loop tests found the flag set.  Over the whole
    loop no key leaves the seen-set and the queue only grows. *)
Theorem loop_ends_only_on_stop (rt : Builtins) (address : string)
    (ticks : list tick) (st : collector) :
  (fst (collect_loop address ticks st) = Stopped
   <-> Exists (fun t => stop_at_loop_test t = true) ticks)
  /\ extends st (snd (collect_loop address ticks st)).
Proof. apply collect_loop_shape. Qed.

Section Snapshots.
Context {rt : Builtins}.

(** Replacing one item of a loop by another on which the body does the
    same. *)
Lemma for_each_st_replace {A : Type}
    (body : collector -> A -> collector * res unit) (pre post : list A)
    (x x' : A) (st : collector) :
  (forall st, body st x = body st x') ->
  for_each_st body (pre ++ x :: post) st
  = for_each_st body (pre ++ x' :: post) st.
Proof.
  intros H. revert st. induction pre as [|y pre IH]; intros st; simpl.
  - now rewrite H.
  - destruct (body st y) as [st' [[]|e]]; [apply IH | reflexivity].
Qed.

(** Dropping an item on which the body does nothing. *)
Lemma for_each_st_drop {A : Type}
    (body : collector -> A -> collector * res unit) (pre post : list A)
    (x : A) (st : collector) :
  (forall st, body st x = (st, Ok tt)) ->
  for_each_st body (pre ++ x :: post) st = for_each_st body (pre ++ post) st.
Proof.
  intros H. revert st. induction pre as [|y pre IH]; intros st; simpl.
  - now rewrite H.
  - destruct (body st y) as [st' [[]|e]]; [apply IH | reflexivity].
Qed.

Lemma sample_body_unparsable (cts : Z) (cid : string) (svc img : json)
    (st : collector) (s ts : json) :
  py_get s "timestamp" JNull = Ok ts ->
  truthy ts = false \/ isoparse_timestamp ts = None ->
  sample_body cts cid svc img st s = (st, Ok tt).
Proof.
  intros Hts H. unfold sample_body. rewrite Hts.
  destruct (truthy ts); simpl; [| reflexivity].
  destruct H as [H | H]; [discriminate | now rewrite H].
Qed.

(** A sample passed over once stays passed over in every state that has
    seen at least as much. *)
Lemma sample_body_again (cts cts' : Z) (cid : string) (svc img : json)
    (st st1 st2 : collector) (s : json) :
  sample_body cts cid svc img st s = (st1, Ok tt) ->
  seen_samples st1 ⊆ seen_samples st2 ->
  sample_body cts' cid svc img st2 s = (st2, Ok tt).
Proof.
  unfold sample_body.
  destruct (py_get s "timestamp" JNull) as [ts |]; [| discriminate].
  destruct (truthy ts); simpl; [| reflexivity].
  destruct (isoparse_timestamp ts) as [t |]; [| reflexivity].
  case_bool_decide as Hk.
  - intros [= <-] S. now rewrite bool_decide_eq_true_2 by exact (S _ Hk).
  - destruct (build_line cts t svc img s); [| discriminate].
    intros [= <-] S. rewrite bool_decide_eq_true_2; [reflexivity |].
    apply S. simpl. set_solver.
Qed.

Lemma samples_again (cts cts' : Z) (cid : string) (svc img : json)
    (l : list json) (st st1 st2 : collector) :
  for_each_st (sample_body cts cid svc img) l st = (st1, Ok tt) ->
  seen_samples st1 ⊆ seen_samples st2 ->
  for_each_st (sample_body cts' cid svc img) l st2 = (st2, Ok tt).
Proof.
  revert st. induction l as [|s l IH]; intros st H S; [reflexivity |].
  simpl in H. simpl.
  destruct (sample_body cts cid svc img st s) as [sta [[]|e]] eqn:E;
    [| discriminate H].
  assert (Sa : seen_samples sta ⊆ seen_samples st2).
  { pose proof (for_each_st_extends (sample_body cts cid svc img) l sta
                  (sample_body_extends cts cid svc img)) as [X _].
    rewrite H in X. simpl in X. etransitivity; eassumption. }
  rewrite (sample_body_again cts cts' cid svc img st sta st2 s E Sa).
  now apply (IH sta).
Qed.

Lemma containers_again (cts cts' : Z) (l : list (string * json))
    (st st1 st2 : collector) :
  for_each_st (container_body cts) l st = (st1, Ok tt) ->
  seen_samples st1 ⊆ seen_samples st2 ->
  for_each_st (container_body cts') l st2 = (st2, Ok tt).
Proof.
  revert st. induction l as [|[cid entry] l IH]; intros st H S;
    [reflexivity |].
  cbn [for_each_st] in H |- *.
  destruct (container_body cts st (cid, entry)) as [sta [[]|e]] eqn:E;
    [| discriminate H].
  assert (Sa : seen_samples sta ⊆ seen_samples st2).
  { pose proof (for_each_st_extends (container_body cts) l sta
                  (container_body_extends cts)) as [X _].
    rewrite H in X. simpl in X. etransitivity; eassumption. }
  unfold container_body in E |- *.
  destruct (container_fields entry) as [[[svc img] stats] |];
    [| discriminate E].
  rewrite (samples_again cts cts' cid svc img stats st sta st2 E Sa).
  now apply (IH sta).
Qed.

End Snapshots.

(** X10.  A sample that is a dict whose timestamp is missing, falsy or
    does not parse is passed over without any other effect: the poll does
    what it does on the snapshot without that sample, whatever else the
    sample holds and wherever it stands. *)
Theorem malformed_sample_is_skipped (rt : Builtins) (address base : string)
    (p p' : poll) (st : collector) (cid : string)
    (entry entry' svc img s ts : json) (pre post : list json)
    (before after : list (string * json)) :
  stop_is_set p' = stop_is_set p ->
  utcnow p' = utcnow p ->
  get_cadvisor_base_url address = Ok base ->
  http_get p (base +:+ "/api/v1.3/docker/")
  = Ok (JDict (before ++ (cid, entry) :: after)) ->
  http_get p' (base +:+ "/api/v1.3/docker/")
  = Ok (JDict (before ++ (cid, entry') :: after)) ->
  container_fields entry = Ok (svc, img, pre ++ s :: post) ->
  container_fields entry' = Ok (svc, img, pre ++ post) ->
  py_get s "timestamp" JNull = Ok ts ->
  truthy ts = false \/ isoparse_timestamp ts = None ->
  collect_once address p st = collect_once address p' st.
Proof.
  intros Hstop Hnow Hb Hp Hp' He He' Hts Hbad. unfold collect_once.
  rewrite Hstop, Hnow, Hb, Hp, Hp'.
  destruct (stop_is_set p); [reflexivity |].
  apply for_each_st_replace. intros st0. unfold container_body.
  rewrite He, He'. apply for_each_st_drop. intros st1.
  now apply (sample_body_unparsable _ _ _ _ _ _ ts).
Qed.

Lemma malformed_sample_is_skipped_witness :
  @collect_once ascii_builtins "localhost"
     (poll_of 1704067205
        (JDict [("c1", entry_with [sample_at_0; unparsable_sample;
                                   sample_at_1])]))
     new_collector
  = @collect_once ascii_builtins "localhost"
      (poll_of 1704067205
         (JDict [("c1", entry_with [sample_at_0; sample_at_1])]))
      new_collector.
Proof.
  apply (malformed_sample_is_skipped ascii_builtins "localhost"
           "http://localhost:8080" _ _ new_collector "c1"
           (entry_with [sample_at_0; unparsable_sample; sample_at_1])
           (entry_with [sample_at_0; sample_at_1])
           (JStr "web") (JStr "") unparsable_sample (JStr "yesterday")
           [sample_at_0] [sample_at_1] [] []);
    try reflexivity.
  right. reflexivity.
Defined.

(** X11.  Polling an unchanged snapshot again puts nothing: when a poll
    has gone through a snapshot without raising, a later poll that gets the
    same answers from the endpoint, in the state left by the first or in
    any state that has seen at least as much, returns without raising and
    leaves the instance as it was. *)
Theorem repolling_puts_nothing (rt : Builtins) (address : string)
    (p p' : poll) (st st1 st2 : collector) :
  stop_is_set p = false ->
  (forall url, http_get p' url = http_get p url) ->
  collect_once address p st = (st1, Ok tt) ->
  seen_samples st1 ⊆ seen_samples st2 ->
  collect_once address p' st2 = (st2, Ok tt).
Proof.
  intros Hstop Hget. unfold collect_once. rewrite Hstop.
  destruct (stop_is_set p'); [reflexivity |].
  destruct (get_cadvisor_base_url address) as [base |]; [| discriminate].
  rewrite Hget.
  destruct (http_get p _) as [data |]; [| discriminate].
  destruct data; try discriminate.
  apply containers_again.
Qed.

Lemma repolling_puts_nothing_witness :
  @collect_once ascii_builtins "localhost" (one_sample_poll 1704067215)
     (fst (@collect_once ascii_builtins "localhost"
             (one_sample_poll 1704067205) new_collector))
  = (fst (@collect_once ascii_builtins "localhost"
            (one_sample_poll 1704067205) new_collector), Ok tt).
Proof.
  apply (repolling_puts_nothing ascii_builtins "localhost"
           (one_sample_poll 1704067205) (one_sample_poll 1704067215)
           new_collector
           (fst (@collect_once ascii_builtins "localhost"
                   (one_sample_poll 1704067205) new_collector)));
    [reflexivity | intros url; reflexivity | | reflexivity].
  vm_compute. reflexivity.
Defined.

(** X12.  The key is per container: two containers that report a sample
    with the same timestamp each get their line, in the order of the
    snapshot. *)
Theorem same_time_other_container_is_kept (rt : Builtins)
    (address base : string) (p : poll) (st : collector) (c1 c2 : string)
    (e1 e2 svc1 img1 svc2 img2 s1 s2 ts1 ts2 : json) (t : Z)
    (line1 line2 : Row) :
  stop_is_set p = false ->
  get_cadvisor_base_url address = Ok base ->
  http_get p (base +:+ "/api/v1.3/docker/")
  = Ok (JDict [(c1, e1); (c2, e2)]) ->
  c1 <> c2 ->
  container_fields e1 = Ok (svc1, img1, [s1]) ->
  container_fields e2 = Ok (svc2, img2, [s2]) ->
  py_get s1 "timestamp" JNull = Ok ts1 ->
  py_get s2 "timestamp" JNull = Ok ts2 ->
  truthy ts1 = true -> truthy ts2 = true ->
  isoparse_timestamp ts1 = Some t -> isoparse_timestamp ts2 = Some t ->
  (c1, t) ∉ seen_samples st -> (c2, t) ∉ seen_samples st ->
  build_line (utcnow p) t svc1 img1 s1 = Ok line1 ->
  build_line (utcnow p) t svc2 img2 s2 = Ok line2 ->
  snd (collect_once address p st) = Ok tt
  /\ write_queue (fst (collect_once address p st))
     = write_queue st ++ [((c1, t), line1); ((c2, t), line2)].
Proof.
  intros Hstop Hb Hp Hne He1 He2 Hts1 Hts2 Htr1 Htr2 Ht1 Ht2 Hk1 Hk2 Hl1 Hl2.
  unfold collect_once. rewrite Hstop, Hb, Hp.
  cbn [for_each_st]. unfold container_body. rewrite He1, He2.
  cbn [for_each_st].
  rewrite (sample_body_puts _ _ _ _ _ _ ts1 t line1) by assumption.
  rewrite (sample_body_puts _ _ _ _ _ _ ts2 t line2);
    try assumption.
  - simpl. split; [reflexivity |]. now rewrite <- app_assoc.
  - simpl. intros H. apply elem_of_union in H as [H | H];
      [| contradiction].
    apply elem_of_singleton in H. congruence.
Qed.

Lemma same_time_other_container_is_kept_witness :
  write_queue
    (fst (@collect_once ascii_builtins "localhost"
            (poll_of 1704067205
               (JDict [("c1", entry_with [sample_at_0]);
                       ("c2", entry_with [sample_at_0])]))
            new_collector))
  = [(("c1", 1704067200), zero_line 1704067205 1704067200);
     (("c2", 1704067200), zero_line 1704067205 1704067200)].
Proof.
  assert (Hne : "c1" <> "c2") by discriminate.
  assert (Hk1 : ("c1", 1704067200) ∉ seen_samples new_collector)
    by (simpl; set_solver).
  assert (Hk2 : ("c2", 1704067200) ∉ seen_samples new_collector)
    by (simpl; set_solver).
  destruct (same_time_other_container_is_kept ascii_builtins
              "localhost" "http://localhost:8080"
              (poll_of 1704067205
                 (JDict [("c1", entry_with [sample_at_0]);
                         ("c2", entry_with [sample_at_0])]))
              new_collector "c1" "c2"
              (entry_with [sample_at_0]) (entry_with [sample_at_0])
              (JStr "web") (JStr "") (JStr "web") (JStr "")
              sample_at_0 sample_at_0
              (JStr "2024-01-01T00:00:00Z") (JStr "2024-01-01T00:00:00Z")
              1704067200
              (zero_line 1704067205 1704067200)
              (zero_line 1704067205 1704067200)
              eq_refl eq_refl eq_refl Hne eq_refl eq_refl eq_refl eq_refl
              eq_refl eq_refl eq_refl eq_refl Hk1 Hk2 eq_refl eq_refl)
    as [_ H].
  exact H.
Defined.

(* --------------------------------------------------------------------- *)
(** ** The wait between two polls *)
(* --------------------------------------------------------------------- *)

Lemma interruptible_sleep_le (stop_at : nat -> bool) (i n : nat) :
  (interruptible_sleep stop_at i n <= n)%nat.
Proof.
  revert i. induction n as [|n IH]; intros i; simpl; [lia |].
  destruct (stop_at i); [lia |]. specialize (IH (S i)). lia.
Qed.

Lemma interruptible_sleep_stop (stop_at : nat -> bool) (i n k : nat) :
  stop_at (i + k)%nat = true ->
  (interruptible_sleep stop_at i n <= k)%nat.
Proof.
  revert i k. induction n as [|n IH]; intros i k H; simpl; [lia |].
  destruct (stop_at i) eqn:E; [lia |].
  destruct k as [|k]; [rewrite Nat.add_0_r in H; congruence |].
  specialize (IH (S i) k). rewrite Nat.add_succ_r in H.
  simpl in IH. specialize (IH H). lia.
Qed.

Lemma interruptible_sleep_unset (stop_at : nat -> bool) (i n k : nat) :
  (k < interruptible_sleep stop_at i n)%nat -> stop_at (i + k)%nat = false.
Proof.
  revert i k. induction n as [|n IH]; intros i k; simpl; [lia |].
  destruct (stop_at i) eqn:E; [lia |]. intros H.
  destruct k as [|k]; [now rewrite Nat.add_0_r |].
  rewrite Nat.add_succ_r. apply (IH (S i) k). lia.
Qed.

Lemma interruptible_sleep_full (stop_at : nat -> bool) (i n : nat) :
  (forall k, (k < n)%nat -> stop_at (i + k)%nat = false) ->
  interruptible_sleep stop_at i n = n.
Proof.
  revert i. induction n as [|n IH]; intros i H; simpl; [reflexivity |].
  rewrite <- (Nat.add_0_r i) at 1. rewrite H by lia. f_equal.
  apply IH. intros k Hk. specialize (H (S k)).
  rewrite Nat.add_succ_r in H. apply H. lia.
Qed.

(** X13.  The wait after a poll sleeps one second at a time, at most
    [interval_seconds] times and not at all for an interval of zero or
    less; it ends at the first test that finds the flag set, so once the
    flag is set at test [k] no more than [k] sleeps are made; every sleep
    made follows a test that found the flag unset; and with the flag never
    set the full interval is slept. *)
Theorem interval_wait_bounds (interval_seconds : Z) (stop_at : nat -> bool) :
  (interval_wait interval_seconds stop_at <= Z.to_nat interval_seconds)%nat
  /\ (interval_seconds <= 0 -> interval_wait interval_seconds stop_at = O)
  /\ (forall k, stop_at k = true ->
                (interval_wait interval_seconds stop_at <= k)%nat)
  /\ (forall k, (k < interval_wait interval_seconds stop_at)%nat ->
                stop_at k = false)
  /\ ((forall k, (k < Z.to_nat interval_seconds)%nat -> stop_at k = false) ->
      interval_wait interval_seconds stop_at = Z.to_nat interval_seconds).
Proof.
  unfold interval_wait. repeat split.
  - apply interruptible_sleep_le.
  - intros H. replace (Z.to_nat interval_seconds) with O by lia.
    reflexivity.
  - intros k H. now apply interruptible_sleep_stop.
  - intros k H.
    now apply (interruptible_sleep_unset stop_at 0
                 (Z.to_nat interval_seconds) k).
  - intros H. now apply interruptible_sleep_full.
Qed.

Lemma interval_wait_bounds_witness :
  (interval_wait 10 (fun i => (3 <=? i)%nat) <= 3)%nat.
Proof.
  destruct (interval_wait_bounds 10 (fun i => (3 <=? i)%nat))
    as (_ & _ & H & _).
  apply (H 3%nat). reflexivity.
Defined.

(* --------------------------------------------------------------------- *)
(** ** The order of the rows in the file *)
(* --------------------------------------------------------------------- *)

Lemma fifo_inv_start (rows : list string) (previous : option string) :
  fifo_inv rows previous (start rows previous).
Proof.
  exists [], [], []. simpl. repeat split. now left.
Qed.

(** Taking the head of the queue: a queued row, or the empty string put
    by [stop]. *)
Lemma fifo_take (h : string)
    (rows written queued sentinel pending q : list string)
    (item : string) (c : caller_pc) :
  rows = written ++ queued ++ pending ->
  item :: q = queued ++ sentinel ->
  sentinel = [] \/ (sentinel = [EmptyString] /\ c = C_join) ->
  exists written' queued' sentinel',
    rows = written' ++ queued' ++ pending
    /\ q = queued' ++ sentinel'
    /\ (sentinel' = [] \/ (sentinel' = [EmptyString] /\ c = C_join))
    /\ h +:+ concat_rows written' = (h +:+ concat_rows written) +:+ item.
Proof.
  intros Hrows Hq Hs. destruct queued as [|x queued]; simpl in Hq.
  - destruct Hs as [-> | [-> Hc]]; [discriminate |].
    injection Hq as -> ->. exists written, [], [].
    split; [exact Hrows |]. split; [reflexivity |]. split; [now left |].
    now rewrite append_empty_r.
  - injection Hq as -> ->. exists (written ++ [x]), queued, sentinel.
    rewrite <- app_assoc.
    split; [exact Hrows |]. split; [reflexivity |]. split; [exact Hs |].
    now rewrite concat_rows_snoc, append_assoc.
Qed.

(** Giving the three lists of [fifo_inv]; the goals about the rows, the
    queue and the empty string are closed from the context. *)
Ltac fifo_with w q s :=
  exists w, q, s;
  cbn [sys_stop sys_queue sys_file sys_writer sys_caller sys_pending];
  (split; [assumption || (now rewrite <- ?app_assoc) |]);
  (split; [assumption || reflexivity || (now rewrite ?app_nil_r) |]);
  (split; [assumption || (now left) || (now right) |]).

Lemma fifo_inv_writer (rows : list string) (previous : option string)
    (s : sys) :
  fifo_inv rows previous s ->
  fifo_inv rows previous (container_queue_writer s).
Proof.
  destruct s as [stop q f w c pending].
  intros (written & queued & sentinel & Hrows & Hq & Hs & Hf).
  simpl in *. unfold container_queue_writer, fifo_inv; simpl.
  destruct w; simpl in *.
  - destruct Hf as [-> _]. fifo_with (@nil string) queued sentinel.
    reflexivity.
  - fifo_with written queued sentinel. destruct stop; exact Hf.
  - destruct q as [|item q]; simpl.
    + fifo_with written queued sentinel. exact Hf.
    + destruct (fifo_take csv_header _ _ _ _ _ _ _ c Hrows Hq Hs)
        as (w' & q' & s' & H1 & H2 & H3 & H4).
      fifo_with w' q' s'. rewrite Hf. unfold file_append.
      f_equal. symmetry. exact H4.
  - destruct q as [|item q]; simpl.
    + fifo_with written queued sentinel. exact Hf.
    + destruct (fifo_take csv_header _ _ _ _ _ _ _ c Hrows Hq Hs)
        as (w' & q' & s' & H1 & H2 & H3 & H4).
      fifo_with w' q' s'. rewrite Hf. unfold file_append.
      f_equal. symmetry. exact H4.
  - fifo_with written queued sentinel. exact Hf.
Qed.

Lemma fifo_inv_caller (rows : list string) (previous : option string)
    (s : sys) :
  fifo_inv rows previous s -> fifo_inv rows previous (caller s).
Proof.
  destruct s as [stop q f w c pending].
  intros (written & queued & sentinel & Hrows & Hq & Hs & Hf).
  simpl in *. unfold caller, fifo_inv; simpl.
  destruct c; simpl in *.
  - destruct Hs as [-> | [_ Hc]]; [| discriminate].
    rewrite app_nil_r in Hq. subst q.
    destruct pending as [|row rest]; simpl.
    + fifo_with written queued (@nil string). exact Hf.
    + fifo_with written (queued ++ [row]) (@nil string). exact Hf.
  - destruct Hs as [-> | [_ Hc]]; [| discriminate].
    rewrite app_nil_r in Hq. subst q.
    fifo_with written queued [EmptyString]. exact Hf.
  - fifo_with written queued sentinel. exact Hf.
Qed.

Lemma fifo_inv_run (rows : list string) (previous : option string)
    (schedule : list thread) (s : sys) :
  fifo_inv rows previous s -> fifo_inv rows previous (run schedule s).
Proof.
  revert s. induction schedule as [|t schedule IH]; intros s H; [exact H |].
  simpl. apply IH. destruct t; simpl.
  - now apply fifo_inv_writer.
  - now apply fifo_inv_caller.
Qed.

Lemma fifo_inv_fine_step (rows : list string) (previous : option string)
    (t : thread) (fs : fine_sys) :
  fifo_inv rows previous (coarse fs) ->
  fifo_inv rows previous (coarse (fine_step t fs)).
Proof.
  intros H. destruct t; simpl.
  - destruct (sys_writer (coarse fs)), (header_pending fs); simpl;
      solve [exact H | now apply fifo_inv_writer].
  - now apply fifo_inv_caller.
Qed.

Lemma fifo_inv_fine_run (rows : list string) (previous : option string)
    (schedule : list thread) (fs : fine_sys) :
  fifo_inv rows previous (coarse fs) ->
  fifo_inv rows previous (coarse (fine_run schedule fs)).
Proof.
  revert fs. induction schedule as [|t schedule IH]; intros fs H;
    [exact H |].
  simpl. apply IH. now apply fifo_inv_fine_step.
Qed.

(** X14.  The file at every moment of a run, under every interleaving and
    with the opening of the file and the writing of the header taken as
    two moves: before the writer opens the file it is what it was before
    the run; between [open(file_path, "w")] and the closing of the first
    [with] block it is empty; from then on it holds the header followed by
    the first rows put, in the order in which they were put, and nothing of
    what it held before. *)
Theorem file_is_header_and_first_rows (rows : list string)
    (previous : option string) (schedule : list thread) :
  let fs := fine_run schedule (fine_start rows previous) in
  match sys_writer (coarse fs), header_pending fs with
  | W_open, false => fine_file fs = previous
  | W_open, true => fine_file fs = Some EmptyString
  | _, _ =>
      exists written rest,
        rows = written ++ rest
        /\ fine_file fs = Some (csv_header +:+ concat_rows written)
  end.
Proof.
  intros fs.
  destruct (fifo_inv_fine_run rows previous schedule
              (fine_start rows previous) (fifo_inv_start rows previous))
    as (written & queued & sentinel & Hrows & _ & _ & Hf).
  fold fs in Hrows, Hf. unfold fine_file.
  destruct (sys_writer (coarse fs)), (header_pending fs);
    try reflexivity; try (now destruct Hf);
    exists written, (queued ++ sys_pending (coarse fs));
    (split; [exact Hrows | exact Hf]).
Qed.

(** X15.  Under every interleaving the writer stays in its blocking loop
    as long as the stop flag is not set: it is neither draining nor
    finished, and no row is lost to an early exit. *)
Theorem writer_waits_for_stop (rows : list string)
    (previous : option string) (schedule : list thread) :
  let s := run schedule (start rows previous) in
  sys_stop s = false ->
  sys_writer s <> W_drain /\ sys_writer s <> W_exit /\ joined s = false.
Proof.
  intros s Hstop.
  destruct (shutdown_inv_run rows schedule _
              (shutdown_inv_start rows previous)) as (_ & _ & Hw).
  fold s in Hw. unfold joined.
  destruct (sys_writer s);
    try (split; [discriminate | split; [discriminate | reflexivity]]).
  - congruence.
  - destruct Hw; congruence.
Qed.

Lemma writer_waits_for_stop_witness :
  sys_writer (run [Writer; Writer; Writer; Writer; Caller; Writer]
                  (start two_rows None)) <> W_exit.
Proof.
  destruct (writer_waits_for_stop two_rows None
              [Writer; Writer; Writer; Writer; Caller; Writer])
    as (_ & H & _); [reflexivity | exact H].
Defined.
